(** * FitCheck engine: ingestion and semantic search

    A shallow embedding of the ingestion script [scripts/ingest_papers.py]
    (text cleaning and chunking, the database writer, the ingestion
    pipeline) and of the search query of [ml_service/main.py], followed by
    the properties of the specification that can be stated about them.

    Conventions of the embedding:
    - a Python [str] is a [string]; a character is an 8-bit code read as the
      Unicode code point of the same number (U+0000 .. U+00FF);
    - Python integers that come from the configuration are [Z], counts and
      lengths are [nat];
    - a raised exception is a value of [exn]; code that may raise returns a
      [result];
    - the embedding model, the database engine, the clock and the JSON parser
      are outside the repository: their behaviour is supplied by explicit
      arguments (a [world], a fault, a parser). *)

From Stdlib Require Import ZArith QArith String Ascii List Sorted.
From stdpp Require Import base strings gmap list.

#[local] Set Warnings "-register-all".
#[local] Open Scope string_scope.
#[local] Open Scope list_scope.

(** ** Python strings and the regular expressions of the scripts *)

Module Py.

(** [str.isspace] on U+0000 .. U+00FF, which is also the class [\s] of [re]
    for [str] patterns: TAB .. CR, FS .. US, SPACE, NEL and NBSP. *)
Definition isspace (c : ascii) : bool :=
  let n := N_of_ascii c in
  (((9 <=? n) && (n <=? 13)) || ((28 <=? n) && (n <=? 32))
   || (n =? 133) || (n =? 160))%N.

(** The class [\d] of [re]: the decimal digits, [0] .. [9] in this range. *)
Definition isdigit (c : ascii) : bool :=
  let n := N_of_ascii c in ((48 <=? n) && (n <=? 57))%N.

(** The class [\w] of [re]: alphanumeric characters and the underscore. *)
Definition isword (c : ascii) : bool :=
  let n := N_of_ascii c in
  (((48 <=? n) && (n <=? 57)) || ((65 <=? n) && (n <=? 90)) || (n =? 95)
   || ((97 <=? n) && (n <=? 122))
   || (n =? 170) || (n =? 178) || (n =? 179) || (n =? 181) || (n =? 185)
   || (n =? 186) || ((188 <=? n) && (n <=? 190))
   || ((192 <=? n) && (n <=? 214)) || ((216 <=? n) && (n <=? 246))
   || ((248 <=? n) && (n <=? 255)))%N.

Definition is_newline (c : ascii) : bool := (N_of_ascii c =? 10)%N.

(** The class [[.!?]] of the sentence splitter. *)
Definition is_terminator (c : ascii) : bool :=
  let n := N_of_ascii c in ((n =? 46) || (n =? 33) || (n =? 63))%N.

(** The characters kept by the punctuation filter of [clean_text]: word
    characters, whitespace, [. , ! ? ; : - ( )] and the two quote marks
    (codes 34 and 39). *)
Definition is_kept (c : ascii) : bool :=
  let n := N_of_ascii c in
  (isword c || isspace c
   || (n =? 46) || (n =? 44) || (n =? 33) || (n =? 63) || (n =? 59)
   || (n =? 58) || (n =? 45) || (n =? 40) || (n =? 41) || (n =? 34)
   || (n =? 39))%N.

(** Truth value of a [str]: non-empty. *)
Definition truthy_str (s : string) : bool :=
  match s with "" => false | String _ _ => true end.

Definition starts_with_space (s : string) : bool :=
  match s with "" => false | String c _ => isspace c end.

(** [s[n:]] for [n >= 0]. *)
Fixpoint drop_chars (n : nat) (s : string) : string :=
  match n, s with
  | S k, String _ s' => drop_chars k s'
  | _, _ => s
  end.

(** Length of the longest prefix of [s] whose characters satisfy [p]. *)
Fixpoint span_length (p : ascii -> bool) (s : string) : nat :=
  match s with
  | String c s' => if p c then S (span_length p s') else 0
  | "" => 0
  end.

(** [str.lstrip()], [str.rstrip()] and [str.strip()]. *)
Fixpoint lstrip (s : string) : string :=
  match s with
  | String c s' => if isspace c then lstrip s' else s
  | "" => ""
  end.

Fixpoint rstrip (s : string) : string :=
  match s with
  | String c s' =>
      let r := rstrip s' in
      if isspace c && negb (truthy_str r) then "" else String c r
  | "" => ""
  end.

Definition strip (s : string) : string := rstrip (lstrip s).

(** [str.split()] with no argument: the maximal runs of non-whitespace
    characters. [cur] holds the token being read. *)
Fixpoint split_from (cur : string) (s : string) : list string :=
  match s with
  | "" => if truthy_str cur then [cur] else []
  | String c s' =>
      if isspace c
      then (if truthy_str cur then [cur] else []) ++ split_from "" s'
      else split_from (cur +:+ String c "") s'
  end.

Definition split (s : string) : list string := split_from "" s.

(** [sep.join(parts)]. *)
Definition join (sep : string) (parts : list string) : string :=
  String.concat sep parts.

(** [c :: l] glued to the first string of a list of pieces. *)
Definition cons_first (c : ascii) (l : list string) : list string :=
  match l with
  | [] => [String c ""]
  | x :: r => String c x :: r
  end.

(** [re.split(r'(?<=[.!?])\s+', text)]: the text is cut at every maximal run
    of whitespace that follows one of [. ! ?]; the run is dropped. [skipping]
    holds while the scan is inside such a run. The result is never empty. *)
Fixpoint re_split_from (skipping : bool) (s : string) : list string :=
  match s with
  | "" => [""]
  | String c s' =>
      if skipping && isspace c then re_split_from true s'
      else if is_terminator c && starts_with_space s'
           then String c "" :: re_split_from true s'
           else cons_first c (re_split_from false s')
  end.

Definition re_split_sentences (text : string) : list string :=
  re_split_from false text.

(** [re.sub(r'\s+', ' ', text)]: every maximal run of whitespace becomes one
    space. [in_run] holds while the scan is inside a run. *)
Fixpoint sub_whitespace_from (in_run : bool) (s : string) : string :=
  match s with
  | "" => ""
  | String c s' =>
      if isspace c
      then (if in_run then sub_whitespace_from true s'
            else String " " (sub_whitespace_from true s'))
      else String c (sub_whitespace_from false s')
  end.

Definition sub_whitespace (text : string) : string :=
  sub_whitespace_from false text.

(** [re.sub(r'\f|\x0c', '', text)]: both alternatives are the form feed. *)
Fixpoint sub_form_feed (s : string) : string :=
  match s with
  | "" => ""
  | String c s' =>
      if (N_of_ascii c =? 12)%N then sub_form_feed s'
      else String c (sub_form_feed s')
  end.

(** Number of characters of [s] before its first newline. *)
Fixpoint line_length (s : string) : nat :=
  match s with
  | String c s' => if is_newline c then 0 else S (line_length s')
  | "" => 0
  end.

(** Index of the last newline among the first [n] characters of [s];
    [None] when there is none. *)
Fixpoint last_newline (n : nat) (s : string) : option nat :=
  match n, s with
  | S k, String c s' =>
      match last_newline k s' with
      | Some i => Some (S i)
      | None => if is_newline c then Some 0 else None
      end
  | _, _ => None
  end.

(** Length of the match of [\s*Page \d+.*$] at the start of [s], if any:
    the whitespace, the word, one digit at least, and the rest of the line. *)
Definition match_page_number (s : string) : option nat :=
  let w := span_length isspace s in
  let r := drop_chars w s in
  if String.prefix "Page " r then
    let r' := drop_chars 5 r in
    match r' with
    | String d _ => if isdigit d then Some (w + 5 + line_length r') else None
    | "" => None
    end
  else None.

(** Length of the match of [\s*\d+\s*$] at the start of [s], if any. The last
    [\s*] is greedy: it runs to the end of the text, or else gives characters
    back until it stops in front of a newline. *)
Definition match_standalone_number (s : string) : option nat :=
  let w := span_length isspace s in
  let r := drop_chars w s in
  let d := span_length isdigit r in
  let r' := drop_chars d r in
  let t := span_length isspace r' in
  match d with
  | O => None
  | S _ =>
      if truthy_str (drop_chars t r') then
        match last_newline t r' with
        | Some i => Some (w + d + i)
        | None => None
        end
      else Some (w + d + t)
  end.

(** [re.sub('^' + pattern, '', text, flags=re.MULTILINE)] for a pattern that
    never matches the empty string: [m] gives the length of the match at the
    start of its argument. [at_line_start] holds at the beginning of the text
    and after a newline; [skip] counts the characters of the current match
    that are still to be removed. *)
Fixpoint sub_at_line_starts (m : string -> option nat)
    (at_line_start : bool) (skip : nat) (s : string) : string :=
  match s with
  | "" => ""
  | String c s' =>
      match skip with
      | S k => sub_at_line_starts m (is_newline c) k s'
      | O =>
          match (if at_line_start then m s else None) with
          | Some (S k) => sub_at_line_starts m (is_newline c) k s'
          | _ => String c (sub_at_line_starts m (is_newline c) 0 s')
          end
      end
  end.

(** The substitution of [clean_text] that replaces every maximal run of
    characters outside the kept set (see [is_kept]) by one space. *)
Fixpoint sub_punctuation_from (in_run : bool) (s : string) : string :=
  match s with
  | "" => ""
  | String c s' =>
      if is_kept c then String c (sub_punctuation_from false s')
      else if in_run then sub_punctuation_from true s'
           else String " " (sub_punctuation_from true s')
  end.

Definition sub_punctuation (text : string) : string :=
  sub_punctuation_from false text.

(** [l[-n:]] for [n > 0]: the last [n] elements, all of [l] when it is
    shorter. *)
Definition last_n {A : Type} (n : Z) (l : list A) : list A :=
  drop (length l - Z.to_nat n) l.

End Py.

(** ** Python values that come out of [json.loads], exceptions *)

(** A JSON value as Python holds it. Numbers are rationals: the scripts only
    test them for truth and never compute with them. *)
Inductive json : Type :=
| JNull
| JBool (b : bool)
| JNum (q : Q)
| JStr (s : string)
| JArr (l : list json)
| JObj (m : gmap string json).

(** The exceptions the scripts can meet. [PostgreSQLError] is the class the
    scripts import under that name and catch around database calls. *)
Inductive exn : Type :=
| KeyError (key : string)
| TypeError
| AttributeError
| ValueError
| FileNotFoundError
| JSONDecodeError
| PostgreSQLError
| EmbeddingError
| HTTPException (status_code : Z).

Inductive result (A : Type) : Type :=
| Ok (a : A)
| Raise (e : exn).
Arguments Ok {A} a.
Arguments Raise {A} e.

(** Sequencing of code that may raise: [x ← r; k] runs [k] on the value of
    [r], or propagates the exception [r] raised. *)
#[global] Instance result_ret : MRet result := fun A a => Ok a.
#[global] Instance result_bind : MBind result := fun A B k r =>
  match r with
  | Ok a => k a
  | Raise e => Raise e
  end.

(** Truth value of a Python object. *)
Definition truthy (v : json) : bool :=
  match v with
  | JNull => false
  | JBool b => b
  | JNum q => negb (Qeq_bool q 0)
  | JStr s => Py.truthy_str s
  | JArr l => match l with [] => false | _ :: _ => true end
  | JObj m => negb (bool_decide (m = ∅))
  end.

(** [d.get(key)] and [d.get(key, default)] on a [dict]; on any other
    object the attribute [get] does not exist. *)
Definition dict_get (d : json) (key : string) (dflt : json) : result json :=
  match d with
  | JObj m => Ok (default dflt (m !! key))
  | _ => Raise AttributeError
  end.

(** ** [class TextProcessor] *)

Module TextProcessor.

(** The fields set by [__init__]. *)
Record t : Type := Build {
  chunk_size : Z;
  chunk_overlap : Z
}.

(** [TextProcessor()] with the default arguments. *)
Definition default : t := {| chunk_size := 500; chunk_overlap := 50 |}.

(** One entry of the list [chunk_text] returns. *)
Record chunk : Type := Chunk {
  text : string;
  word_count : nat;
  title : json
}.

(** [clean_text]. *)
Definition clean_text (raw : string) : string :=
  if negb (Py.truthy_str raw) then ""
  else
    let text := Py.sub_whitespace raw in
    let text := Py.sub_form_feed text in
    let text := Py.sub_at_line_starts Py.match_page_number true 0 text in
    let text := Py.sub_at_line_starts Py.match_standalone_number true 0 text in
    let text := Py.sub_punctuation text in
    Py.strip (Py.sub_whitespace text).

(** [len(sentence.split())]. *)
Definition words (sentence : string) : nat := length (Py.split sentence).

(** [sum(len(s.split()) for s in sentences)]. *)
Definition words_of (sentences : list string) : nat :=
  sum_list_with words sentences.

(** The local variables of [chunk_text] that live across the loop. *)
Record state : Type := State {
  chunks : list chunk;
  current_chunk : list string;
  current_length : nat
}.

Definition nonempty {A : Type} (l : list A) : bool :=
  match l with [] => false | _ :: _ => true end.

(** The sentences a new chunk starts with when the chunk [closed] has just
    been emitted. *)
Definition overlap_sentences (self : t) (closed : list string) : list string :=
  if (0 <? chunk_overlap self)%Z && (1 <? length closed)%nat
  then Py.last_n (chunk_overlap self) closed
  else [].

(** The body of the loop [for sentence in sentences]. *)
Definition step (self : t) (title : json) (st : state) (sentence : string)
    : state :=
  let sentence_length := words sentence in
  let st :=
    if (chunk_size self <? Z.of_nat (current_length st + sentence_length))%Z
       && nonempty (current_chunk st)
    then
      let overlap := overlap_sentences self (current_chunk st) in
      {| chunks := chunks st ++
           [ {| text := Py.join " " (current_chunk st);
                word_count := current_length st;
                title := title |} ];
         current_chunk := overlap;
         current_length :=
           if (0 <? chunk_overlap self)%Z && (1 <? length (current_chunk st))%nat
           then words_of overlap else 0 |}
    else st in
  {| chunks := chunks st;
     current_chunk := current_chunk st ++ [sentence];
     current_length := current_length st + sentence_length |}.

(** The statements after the loop: the final chunk. *)
Definition finish (title : json) (st : state) : list chunk :=
  if nonempty (current_chunk st)
  then chunks st ++
         [ {| text := Py.join " " (current_chunk st);
              word_count := current_length st;
              title := title |} ]
  else chunks st.

Definition initial : state :=
  {| chunks := []; current_chunk := []; current_length := 0 |}.

(** [chunk_text]. *)
Definition chunk_text (self : t) (text : string) (title : json) : list chunk :=
  let sentences := Py.re_split_sentences text in
  finish title (fold_left (step self title) sentences initial).

End TextProcessor.

(** ** The table [research_papers] *)

Module Store.

(** An embedding, as [embedding.tolist()] hands it to the driver. *)
Definition vector : Type := list Q.

(** The dictionary [metadata] that [insert_paper_chunks] serialises. *)
Record metadata : Type := Metadata {
  meta_chunk_index : nat;
  total_chunks : nat;
  meta_word_count : nat;
  source_file : json;
  processed_at : string
}.

(** One row, with the columns the [INSERT] statement fills. *)
Record row : Type := Row {
  title : string;
  abstract : json;
  text_chunk : string;
  embedding : vector;
  row_metadata : metadata;
  paper_id : string;
  chunk_index : nat;
  chunk_length : nat
}.

(** A connection: the rows visible to every reader, and the rows written by
    the open transaction. *)
Record connection : Type := Connection {
  committed : list row;
  pending : list row
}.

Definition connect (table : list row) : connection :=
  {| committed := table; pending := [] |}.

Definition execute_insert (conn : connection) (r : row) : connection :=
  {| committed := committed conn; pending := pending conn ++ [r] |}.

Definition commit (conn : connection) : connection :=
  {| committed := committed conn ++ pending conn; pending := [] |}.

Definition rollback (conn : connection) : connection :=
  {| committed := committed conn; pending := [] |}.

(** [conn.close()]: what the open transaction wrote is discarded. *)
Definition close (conn : connection) : list row := committed conn.

End Store.

(** ** [scripts/ingest_papers.py]: the database manager *)

Module DatabaseManager.
Import Store.

(** What the database engine does during one call of [insert_paper_chunks]:
    nothing wrong, a refused connection, an error on the [i]-th [execute]
    (from 0), or an error on [commit]. *)
Inductive insert_fault : Type :=
| NoFault
| ConnectFails
| ExecuteFails (i : nat)
| CommitFails.

(** What it does during one call of [get_processed_papers]. *)
Inductive select_fault : Type :=
| SelectOk
| SelectConnectFails
| SelectExecuteFails.

(** [s[:n]]. *)
Fixpoint take_chars (n : nat) (s : string) : string :=
  match n, s with
  | S k, String c s' => String c (take_chars k s')
  | _, _ => ""
  end.

Fixpoint map_chars (f : ascii -> ascii) (s : string) : string :=
  match s with
  | "" => ""
  | String c s' => String (f c) (map_chars f s')
  end.

(** [s.replace(' ', '_')]. *)
Definition replace_space (c : ascii) : ascii :=
  if (N_of_ascii c =? 32)%N then ascii_of_N 95 else c.

(** [s.lower()], one character at a time. *)
Definition lower (c : ascii) : ascii :=
  let n := N_of_ascii c in
  if (((65 <=? n) && (n <=? 90)) || ((192 <=? n) && (n <=? 214))
      || ((216 <=? n) && (n <=? 222)))%N
  then ascii_of_N (n + 32) else c.

(** [paper_data['title']]. *)
Definition subscript_title (paper_data : json) : result json :=
  match paper_data with
  | JObj m =>
      match m !! "title" with
      | Some v => Ok v
      | None => Raise (KeyError "title")
      end
  | _ => Raise TypeError
  end.

(** [title[:50].replace(' ', '_').lower()] on a [str]. *)
Definition paper_id_stem (title : string) : string :=
  map_chars lower (map_chars replace_space (take_chars 50 title)).

(** The arguments of one [cursor.execute]: the row for [chunk], the [i]-th
    of [total]. *)
Definition row_of (now : string) (paper_data : json) (title : string)
    (paper_id : string) (total : nat) (i : nat)
    (chunk : TextProcessor.chunk) (embedding : vector) : result row :=
  source ← dict_get paper_data "source" (JStr "papers.jsonl");
  abstract ← dict_get paper_data "abstract" (JStr "");
  mret {| title := title;
          abstract := abstract;
          text_chunk := TextProcessor.text chunk;
          embedding := embedding;
          row_metadata :=
            {| meta_chunk_index := i;
               total_chunks := total;
               meta_word_count := TextProcessor.word_count chunk;
               source_file := source;
               processed_at := now |};
          paper_id := paper_id;
          chunk_index := i;
          chunk_length := String.length (TextProcessor.text chunk) |}.

(** Whether the engine refuses the [i]-th [execute]. *)
Definition execute_fails (fault : insert_fault) (i : nat) : bool :=
  match fault with
  | ExecuteFails j => (i =? j)%nat
  | _ => false
  end.

(** The loop over [enumerate(zip(chunks, embeddings))], from index [i] on. *)
Fixpoint insert_rows (fault : insert_fault) (now : string) (paper_data : json)
    (title : string) (paper_id : string) (total : nat) (i : nat)
    (pairs : list (TextProcessor.chunk * vector)) (conn : connection)
    : connection * result unit :=
  match pairs with
  | [] => (conn, Ok ())
  | (chunk, embedding) :: rest =>
      match row_of now paper_data title paper_id total i chunk embedding with
      | Raise e => (conn, Raise e)
      | Ok r =>
          if execute_fails fault i then (conn, Raise PostgreSQLError)
          else insert_rows fault now paper_data title paper_id total (S i) rest
                 (execute_insert conn r)
      end
  end.

(** The [try] block of [insert_paper_chunks]. Building [paper_id] needs a
    title that is a [str]: a list has no [replace], the other values cannot
    be sliced. *)
Definition insert_try (fault : insert_fault) (now : string) (paper_data : json)
    (chunks : list TextProcessor.chunk) (embeddings : list vector)
    (conn : connection) : connection * result unit :=
  match subscript_title paper_data with
  | Raise e => (conn, Raise e)
  | Ok (JStr title) =>
      let paper_id := paper_id_stem title +:+ "_" +:+ now in
      match insert_rows fault now paper_data title paper_id (length chunks)
              0 (zip chunks embeddings) conn with
      | (conn, Ok _) =>
          match fault with
          | CommitFails => (conn, Raise PostgreSQLError)
          | _ => (commit conn, Ok ())
          end
      | (conn, Raise e) => (conn, Raise e)
      end
  | Ok (JArr _) => (conn, Raise AttributeError)
  | Ok _ => (conn, Raise TypeError)
  end.

(** [insert_paper_chunks]: the table after the call, and how the call ends.
    [except PostgreSQLError] rolls back and raises again; any other exception
    only meets [finally], which closes the connection. *)
Definition insert_paper_chunks (fault : insert_fault) (now : string)
    (paper_data : json) (chunks : list TextProcessor.chunk)
    (embeddings : list vector) (table : list row) : list row * result unit :=
  match fault with
  | ConnectFails => (table, Raise PostgreSQLError)
  | _ =>
      match insert_try fault now paper_data chunks embeddings (connect table) with
      | (conn, Ok _) => (close conn, Ok ())
      | (conn, Raise PostgreSQLError) => (close (rollback conn), Raise PostgreSQLError)
      | (conn, Raise e) => (close conn, Raise e)
      end
  end.

(** [get_processed_papers]: the set of the titles in the table; the empty
    set when the query fails. *)
Definition get_processed_papers (fault : select_fault) (table : list row)
    : result (gset string) :=
  match fault with
  | SelectConnectFails => Raise PostgreSQLError
  | SelectExecuteFails => Ok ∅
  | SelectOk => Ok (list_to_set (map title table))
  end.

End DatabaseManager.

(** ** [scripts/ingest_papers.py]: the pipeline *)

Module Pipeline.
Import Store.

(** One entry of [failed_papers]; each stands for the formatted string the
    script appends: [Line n: JSON decode error], [No content: title],
    [No chunks: title] and [Processing error: title]. *)
Inductive failure : Type :=
| LineError (line_num : nat)
| NoContent (title : json)
| NoChunks (title : json)
| ProcessingError (title : json).

(** What the pipeline changes: the table and [self.failed_papers]. *)
Record state : Type := State {
  table : list row;
  failed_papers : list failure
}.

Definition record_failure (f : failure) (st : state) : state :=
  {| table := table st; failed_papers := failed_papers st ++ [f] |}.

(** What lies outside the script while one document is processed: the result
    of [generate_embeddings] on the chunk texts, and the behaviour of the
    database during the insertion. *)
Record document_run : Type := DocumentRun {
  generate_embeddings : list string -> result (list vector);
  fault : DatabaseManager.insert_fault
}.

(** What lies outside the script during one run: the parser [json.loads]
    ([None] for [JSONDecodeError]), the lines of the data file ([None] when
    the file does not exist), the clock, the behaviour of the database during
    the title query and the statistics query, whether the embedding model
    loads, and a [document_run] for each document processed, by position. *)
Record world : Type := World {
  json_loads : string -> option json;
  data_file : option (list string);
  now : string;
  titles_fault : DatabaseManager.select_fault;
  model_loads : bool;
  documents : nat -> document_run;
  stats_connect_fails : bool
}.

Definition newline : string := String (ascii_of_N 10) "".

(** The loop of [load_papers] over [enumerate(f, 1)], from line [line_num]
    on. *)
Fixpoint load_lines (loads : string -> option json) (line_num : nat)
    (lines : list string) (papers : list json) (failed : list failure)
    : list json * list failure :=
  match lines with
  | [] => (papers, failed)
  | line :: rest =>
      match loads (Py.strip line) with
      | Some paper =>
          load_lines loads (S line_num) rest (papers ++ [paper]) failed
      | None =>
          load_lines loads (S line_num) rest papers
            (failed ++ [LineError line_num])
      end
  end.

(** [load_papers]. *)
Definition load_papers (w : world) (st : state) : state * result (list json) :=
  match data_file w with
  | None => (st, Raise FileNotFoundError)
  | Some lines =>
      let '(papers, failed) :=
        load_lines (json_loads w) 1 lines [] (failed_papers st) in
      ({| table := table st; failed_papers := failed |}, Ok papers)
  end.

(** [v[:50]], evaluated for a log message: only its success matters. *)
Definition slice_50 (v : json) : result unit :=
  match v with
  | JStr _ | JArr _ => Ok ()
  | _ => Raise TypeError
  end.

(** [text_content += paper[key] + suffix] under [if paper.get(key)]: a true
    value that is not a [str] cannot be added to one. *)
Definition add_field (paper : json) (key : string) (suffix : string)
    (text_content : string) : result string :=
  v ← dict_get paper key JNull;
  if truthy v then
    match v with
    | JStr s => Ok (text_content +:+ s +:+ suffix)
    | _ => Raise TypeError
    end
  else Ok text_content.

(** The [try] block of [process_paper]. *)
Definition process_paper_try (tp : TextProcessor.t) (now : string)
    (ext : document_run) (paper : json) (st : state) : state * result nat :=
  match
    title ← dict_get paper "title" (JStr "Untitled");
    text_content ← add_field paper "abstract" (newline +:+ newline) "";
    text_content ← add_field paper "full_text" "" text_content;
    mret (title, text_content)
  with
  | Raise e => (st, Raise e)
  | Ok (title, text_content) =>
      if negb (Py.truthy_str (Py.strip text_content)) then
        match slice_50 title with
        | Raise e => (st, Raise e)
        | Ok _ => (record_failure (NoContent title) st, Ok 0)
        end
      else
        let clean_text := TextProcessor.clean_text text_content in
        let chunks := TextProcessor.chunk_text tp clean_text title in
        if negb (TextProcessor.nonempty chunks) then
          match slice_50 title with
          | Raise e => (st, Raise e)
          | Ok _ => (record_failure (NoChunks title) st, Ok 0)
          end
        else
          match generate_embeddings ext (map TextProcessor.text chunks) with
          | Raise e => (st, Raise e)
          | Ok embeddings =>
              match DatabaseManager.insert_paper_chunks (fault ext) now paper
                      chunks embeddings (table st) with
              | (table', Ok _) =>
                  ({| table := table'; failed_papers := failed_papers st |},
                   Ok (length chunks))
              | (table', Raise e) =>
                  ({| table := table'; failed_papers := failed_papers st |},
                   Raise e)
              end
          end
  end.

(** [process_paper]: [except Exception] records the failure and returns 0;
    the handler itself reads [paper.get('title', 'Unknown')]. *)
Definition process_paper (tp : TextProcessor.t) (now : string)
    (ext : document_run) (paper : json) (st : state) : state * result nat :=
  match process_paper_try tp now ext paper st with
  | (st', Ok n) => (st', Ok n)
  | (st', Raise _) =>
      match dict_get paper "title" (JStr "Unknown") with
      | Ok title => (record_failure (ProcessingError title) st', Ok 0)
      | Raise e => (st', Raise e)
      end
  end.

(** [paper.get('title') not in processed_titles]: a list or a dictionary
    cannot be hashed; a value that is not a [str] equals no title. *)
Definition not_processed (processed_titles : gset string) (paper : json)
    : result bool :=
  v ← dict_get paper "title" JNull;
  match v with
  | JStr s => Ok (negb (bool_decide (s ∈ processed_titles)))
  | JArr _ | JObj _ => Raise TypeError
  | _ => Ok true
  end.

(** The loop that builds [papers_to_process]. *)
Fixpoint filter_papers (processed_titles : gset string) (papers : list json)
    (papers_to_process : list json) : result (list json) :=
  match papers with
  | [] => Ok papers_to_process
  | paper :: rest =>
      keep ← not_processed processed_titles paper;
      filter_papers processed_titles rest
        (if keep : bool then papers_to_process ++ [paper] else papers_to_process)
  end.

(** [range(0, n, step)] for [step > 0]; [fuel] bounds the number of items. *)
Fixpoint range_from (fuel : nat) (i n step : nat) : list nat :=
  match fuel with
  | O => []
  | S fuel' => if (i <? n)%nat then i :: range_from fuel' (i + step) n step else []
  end.

(** [range(0, n, batch_size)]: an error for a zero step, empty for a negative
    one. *)
Definition batch_starts (n : nat) (batch_size : Z) : result (list nat) :=
  if (batch_size =? 0)%Z then Raise ValueError
  else if (batch_size <? 0)%Z then Ok []
  else Ok (range_from n 0 n (Z.to_nat batch_size)).

(** The counters of the processing loop, beside the pipeline state. *)
Record progress : Type := Progress {
  pipeline : state;
  total_chunks : nat;
  processed_papers : nat
}.

(** The loop [for paper in batch]; each paper comes with its
    [document_run]. *)
Fixpoint process_batch (tp : TextProcessor.t) (now : string)
    (batch : list (document_run * json)) (p : progress) : progress * result unit :=
  match batch with
  | [] => (p, Ok ())
  | (ext, paper) :: rest =>
      match process_paper tp now ext paper (pipeline p) with
      | (st, Raise e) =>
          ({| pipeline := st; total_chunks := total_chunks p;
              processed_papers := processed_papers p |}, Raise e)
      | (st, Ok chunk_count) =>
          process_batch tp now rest
            (if (0 <? chunk_count)%nat
             then {| pipeline := st;
                     total_chunks := total_chunks p + chunk_count;
                     processed_papers := processed_papers p + 1 |}
             else {| pipeline := st; total_chunks := total_chunks p;
                     processed_papers := processed_papers p |})
      end
  end.

(** The loop [for i in range(0, len(papers_to_process), self.batch_size)],
    with [batch = papers_to_process[i:i + self.batch_size]]. *)
Fixpoint process_batches (tp : TextProcessor.t) (now : string)
    (batch_size : nat) (papers_to_process : list (document_run * json))
    (starts : list nat) (p : progress) : progress * result unit :=
  match starts with
  | [] => (p, Ok ())
  | i :: rest =>
      match process_batch tp now (take batch_size (drop i papers_to_process)) p with
      | (p', Raise e) => (p', Raise e)
      | (p', Ok _) => process_batches tp now batch_size papers_to_process rest p'
      end
  end.

(** How a run ends when no exception leaves it. *)
Inductive outcome : Type :=
| NoPapers
| AllProcessed
| Completed (processed_papers total_chunks : nat).

(** [run], up to the final report: the statements after the loop only read
    the state (the statistics query, the log of failed papers). *)
Definition run (tp : TextProcessor.t) (batch_size : Z) (w : world) (st : state)
    : state * result outcome :=
  match load_papers w st with
  | (st, Raise e) => (st, Raise e)
  | (st, Ok papers) =>
      if negb (TextProcessor.nonempty papers) then (st, Ok NoPapers)
      else
        match
          processed_titles ←
            DatabaseManager.get_processed_papers (titles_fault w) (table st);
          filter_papers processed_titles papers []
        with
        | Raise e => (st, Raise e)
        | Ok papers_to_process =>
            if negb (TextProcessor.nonempty papers_to_process)
            then (st, Ok AllProcessed)
            else if negb (model_loads w) then (st, Raise EmbeddingError)
            else
              match batch_starts (length papers_to_process) batch_size with
              | Raise e => (st, Raise e)
              | Ok starts =>
                  match
                    process_batches tp (now w) (Z.to_nat batch_size)
                      (imap (fun i paper => (documents w i, paper))
                         papers_to_process)
                      starts
                      {| pipeline := st; total_chunks := 0;
                         processed_papers := 0 |}
                  with
                  | (p, Raise e) => (pipeline p, Raise e)
                  | (p, Ok _) =>
                      if stats_connect_fails w
                      then (pipeline p, Raise PostgreSQLError)
                      else (pipeline p,
                            Ok (Completed (processed_papers p) (total_chunks p)))
                  end
              end
        end
  end.

End Pipeline.

(** ** [ml_service/main.py]: the similarity query *)

Module Search.
Import Store.

(** One row of the result: the selected columns and [similarity_score]. *)
Record hit : Type := Hit {
  source : row;
  similarity_score : Q
}.

(** What the database engine does during the query. *)
Inductive query_fault : Type :=
| QueryOk
| QueryConnectFails
| QueryExecuteFails.

Section Query.

(** The operator [<=>] of the vector extension: the cosine distance. *)
Variable cosine_distance : vector -> vector -> Q.

(** The column [1 - (embedding <=> query) as similarity_score]. *)
Definition score (query : vector) (r : row) : Q :=
  1 - cosine_distance (embedding r) query.

(** [ORDER BY similarity_score DESC], as an insertion sort that keeps rows of
    equal score in the order of the table. *)
Fixpoint insert_desc (h : hit) (l : list hit) : list hit :=
  match l with
  | [] => [h]
  | x :: r =>
      if Qle_bool (similarity_score x) (similarity_score h)
      then h :: x :: r
      else x :: insert_desc h r
  end.

Definition order_by_score_desc (l : list hit) : list hit :=
  foldr insert_desc [] l.

(** The [SELECT] statement: [WHERE], the selected columns, [ORDER BY] and
    [LIMIT]. *)
Definition select (table : list row) (query : vector)
    (similarity_threshold : Q) (max_results : nat) : list hit :=
  take max_results
    (order_by_score_desc
       (map (fun r => {| source := r; similarity_score := score query r |})
          (filter (fun r => Qle_bool similarity_threshold (score query r) = true)
             table))).

(** [semantic_search]: an error of the engine (a refused connection, a failed
    statement, a negative [LIMIT]) ends in an exception; the handler turns
    the one of [execute] into [HTTPException(500)]. *)
Definition semantic_search (fault : query_fault) (table : list row)
    (query_embedding : vector) (max_results : Z) (similarity_threshold : Q)
    : result (list hit) :=
  match fault with
  | QueryConnectFails => Raise PostgreSQLError
  | QueryExecuteFails => Raise (HTTPException 500)
  | QueryOk =>
      if (max_results <? 0)%Z then Raise (HTTPException 500)
      else Ok (select table query_embedding similarity_threshold
                 (Z.to_nat max_results))
  end.

End Query.

End Search.

(** ** Notions used in the statements about [chunk_text] *)

Module Chunking.
Import TextProcessor.

(** The sentences of a chunk, read back from its text. *)
Definition sentences_of (c : chunk) : list string :=
  Py.re_split_sentences (text c).

(** Number of sentences that a chunk repeats from the chunk [closed] emitted
    just before it. *)
Definition overlap_count (self : t) (closed : list string) : nat :=
  length (overlap_sentences self closed).

(** The chunks, given by their sentences, with the repeated sentences removed
    from the front of each chunk; [prev] is the chunk before the first
    one ([[]] when there is none). *)
Fixpoint without_overlaps_from (self : t) (prev : list string)
    (groups : list (list string)) : list string :=
  match groups with
  | [] => []
  | g :: rest =>
      drop (overlap_count self prev) g ++ without_overlaps_from self g rest
  end.

Definition without_overlaps (self : t) (groups : list (list string))
    : list string :=
  without_overlaps_from self [] groups.

(** Every chunk starts with the sentences that [overlap_sentences] takes from
    the end of the chunk before it. *)
Fixpoint overlaps_carried_from (self : t) (prev : list string)
    (groups : list (list string)) : Prop :=
  match groups with
  | [] => True
  | g :: rest =>
      take (overlap_count self prev) g = overlap_sentences self prev
      /\ overlaps_carried_from self g rest
  end.

(** Every chunk, given by its sentences and its word count, stays within
    [chunk_size] words, or is made of the sentences repeated from the chunk
    before it and one more sentence. *)
Fixpoint within_window_from (self : t) (prev : list string)
    (cs : list (list string * nat)) : Prop :=
  match cs with
  | [] => True
  | (g, n) :: rest =>
      ((Z.of_nat n <= chunk_size self)%Z
       \/ length g = S (overlap_count self prev))
      /\ within_window_from self g rest
  end.

Definition within_window (self : t) (cs : list chunk) : Prop :=
  within_window_from self []
    (map (fun c => (sentences_of c, word_count c)) cs).

(** A chunk that is one sentence of more than [chunk_size] words. *)
Definition single_long_sentence (self : t) (c : chunk) : Prop :=
  length (sentences_of c) = 1
  /\ (chunk_size self < Z.of_nat (word_count c))%Z.

(** The sentence [s] is the whole text of one of the chunks. *)
Definition emitted_alone (cs : list chunk) (s : string) : Prop :=
  exists c, In c cs /\ text c = s.

(** The last element of [l], or [prev] when [l] is empty. *)
Fixpoint last_from {A : Type} (prev : A) (l : list A) : A :=
  match l with
  | [] => prev
  | x :: rest => last_from x rest
  end.

(** [g] is a run of consecutive elements of [l]. *)
Definition segment {A : Type} (g l : list A) : Prop :=
  exists a b, l = a ++ g ++ b.

(** The sentences of the chunks as the loop of [chunk_text] groups them:
    the closed groups and the group being filled. *)
Definition group_step (self : t) (acc : list (list string) * list string)
    (sentence : string) : list (list string) * list string :=
  let '(groups, current) := acc in
  if (chunk_size self <? Z.of_nat (words_of current + words sentence))%Z
     && nonempty current
  then (groups ++ [current], overlap_sentences self current ++ [sentence])
  else (groups, current ++ [sentence]).

Definition close_groups (acc : list (list string) * list string)
    : list (list string) :=
  let '(groups, current) := acc in
  if nonempty current then groups ++ [current] else groups.

Definition sentence_groups (self : t) (sentences : list string)
    : list (list string) :=
  close_groups (fold_left (group_step self) sentences ([], [])).

(** The chunk made of the sentences [g]. *)
Definition chunk_of (title : json) (g : list string) : chunk :=
  {| text := Py.join " " g; word_count := words_of g; title := title |}.

(** The state of [chunk_text] that stands for closed groups and a current
    group. *)
Definition state_of (title : json) (acc : list (list string) * list string)
    : state :=
  {| chunks := map (chunk_of title) acc.1;
     current_chunk := acc.2;
     current_length := words_of acc.2 |}.

(** What holds of the closed groups [groups] and the current group [current]
    once the loop has read the sentences [read]. *)
Record invariant (self : t) (read : list string)
    (groups : list (list string)) (current : list string) : Prop := Invariant {
  inv_first : current = [] -> groups = [];
  inv_read : without_overlaps_from self [] (groups ++ [current]) = read;
  inv_carried : overlaps_carried_from self [] (groups ++ [current]);
  inv_closed : Forall (fun g => g <> [] /\ segment g read) groups;
  inv_current : exists a, read = a ++ current;
  inv_window :
    within_window_from self [] (map (fun g => (g, words_of g)) groups);
  inv_window_current :
    current <> [] ->
    (Z.of_nat (words_of current) <= chunk_size self)%Z
    \/ length current = S (overlap_count self (last_from [] groups))
}.

(** No terminator of [s] is followed by whitespace: the sentence splitter
    finds nothing to cut in [s]. *)
Fixpoint uncut (s : string) : bool :=
  match s with
  | "" => true
  | String c s' =>
      negb (Py.is_terminator c && Py.starts_with_space s') && uncut s'
  end.

Fixpoint ends_with_terminator (s : string) : bool :=
  match s with
  | "" => false
  | String c "" => Py.is_terminator c
  | String _ s' => ends_with_terminator s'
  end.

(** What the sentence splitter guarantees about its result: no sentence can
    be cut further, every sentence but the last ends with a terminator, and
    every sentence after another one is empty or starts with a character that
    is not whitespace. *)
Fixpoint well_split (l : list string) : Prop :=
  match l with
  | [] => True
  | s :: rest =>
      uncut s = true
      /\ match rest with
         | [] => True
         | s' :: _ =>
             ends_with_terminator s = true
             /\ Py.starts_with_space s' = false
             /\ well_split rest
         end
  end.

End Chunking.

(** ** Notions used in the statements about the pipeline and the search *)

Module Statements.
Import Store.

(** The documents of the data file: the values of the lines that parse. *)
Definition parsed_lines (loads : string -> option json) (lines : list string)
    : list json :=
  omap (fun line => loads (Py.strip line)) lines.

(** The numbers of the lines that do not parse, the first line being
    [line_num]. *)
Fixpoint failed_line_numbers (loads : string -> option json) (line_num : nat)
    (lines : list string) : list nat :=
  match lines with
  | [] => []
  | line :: rest =>
      match loads (Py.strip line) with
      | Some _ => failed_line_numbers loads (S line_num) rest
      | None => line_num :: failed_line_numbers loads (S line_num) rest
      end
  end.

(** A document whose title is one of [titles]. *)
Definition already_ingested (titles : gset string) (paper : json) : Prop :=
  exists (m : gmap string json) (s : string),
    paper = JObj m /\ m !! "title" = Some (JStr s) /\ s ∈ titles.

(** Scores do not increase along a list of hits. *)
Definition by_score_desc (a b : Search.hit) : Prop :=
  (Search.similarity_score b <= Search.similarity_score a)%Q.

End Statements.

(** ** A small world for examples *)

Module Example.
Import Store Pipeline.

(** A stand-in for [json.loads], enough for examples: a line that starts
    with a brace is a document whose title is the rest of the line, any
    other line does not parse. *)
Definition loads (line : string) : option json :=
  match line with
  | String "{" rest => Some (JObj {[ "title" := JStr rest ]})
  | _ => None
  end.

(** A world in which nothing fails, with the given lines in the data
    file. *)
Definition world_of (lines : list string) : world :=
  {| json_loads := loads;
     data_file := Some lines;
     now := "20240101_000000";
     titles_fault := DatabaseManager.SelectOk;
     model_loads := true;
     documents := fun _ =>
       {| generate_embeddings := fun texts => Ok (map (fun _ => [1%Q]) texts);
          fault := DatabaseManager.NoFault |};
     stats_connect_fails := false |}.

(** A row of the document titled [title]. *)
Definition row_titled (title : string) : row :=
  {| title := title;
     abstract := JStr "";
     text_chunk := "One.";
     embedding := [1%Q];
     row_metadata := Metadata 0 1 1 (JStr "papers.jsonl") "20240101_000000";
     paper_id := "x_20240101_000000";
     chunk_index := 0;
     chunk_length := 4 |}.

(** Ten lines that parse and, in fourth place, one that does not. *)
Definition eleven_lines : list string :=
  ["{A"; "{B"; "{C"; "oops"; "{D"; "{E"; "{F"; "{G"; "{H"; "{I"; "{J"].

(** Another stand-in for [json.loads]: a line that starts with a brace is a
    document whose title is the rest of the line and whose text is two short
    sentences. *)
Definition loads_with_text (line : string) : option json :=
  match line with
  | String "{" rest =>
      Some (JObj (<[ "title" := JStr rest ]>
                    {[ "full_text" := JStr "One. Two." ]}))
  | _ => None
  end.

(** The world of [world_of] with documents that have a text, in which the
    statement of the title query fails and nothing else does. *)
Definition world_with_failing_title_query (lines : list string) : world :=
  {| json_loads := loads_with_text;
     data_file := Some lines;
     now := "20240101_000000";
     titles_fault := DatabaseManager.SelectExecuteFails;
     model_loads := true;
     documents := fun _ =>
       {| generate_embeddings := fun texts => Ok (map (fun _ => [1%Q]) texts);
          fault := DatabaseManager.NoFault |};
     stats_connect_fails := false |}.

End Example.

(** * Properties *)

#[local] Arguments String.append : simpl nomatch.

(** Closes a goal about [insert_paper_chunks] in a case where the call
    raises before anything is committed. *)
Ltac raises_unchanged :=
  simpl;
  split;
  [ right; split; [first [reflexivity | assumption] | eexists; reflexivity]
  | intros; split; [first [reflexivity | assumption] | eexists; reflexivity] ].

(** ** Strings *)

Section StringFacts.
Import Py.

Lemma append_empty_r (s : string) : s +:+ "" = s.
Proof. induction s as [|c s IH]; simpl; [reflexivity | now rewrite IH]. Qed.

Lemma append_assoc (a b c : string) : (a +:+ b) +:+ c = a +:+ (b +:+ c).
Proof. induction a as [|x a IH]; simpl; [reflexivity | now rewrite IH]. Qed.

Lemma terminator_not_space (c : ascii) :
  is_terminator c = true -> isspace c = false.
Proof.
  destruct c as [[] [] [] [] [] [] [] []]; vm_compute; congruence.
Qed.

Lemma isspace_space : isspace " " = true.
Proof. reflexivity. Qed.

(** [str.split] of two pieces glued by a space. *)
Lemma split_from_append (a b cur : string) :
  split_from cur (a +:+ String " " b) = split_from cur a ++ split_from "" b.
Proof.
  revert cur. induction a as [|c a IH]; intros cur; simpl.
  - reflexivity.
  - destruct (isspace c).
    + now rewrite IH, app_assoc.
    + apply IH.
Qed.

Lemma split_join (l : list string) :
  split (join " " l) = concat (map split l).
Proof.
  induction l as [|x [|y r] IH].
  - reflexivity.
  - simpl. now rewrite app_nil_r.
  - change (join " " (x :: y :: r)) with (x +:+ String " " (join " " (y :: r))).
    unfold split at 1. rewrite split_from_append.
    change (split_from "" (join " " (y :: r))) with (split (join " " (y :: r))).
    now rewrite IH.
Qed.

End StringFacts.

(** ** The loop of [chunk_text], seen on sentences *)

Section Groups.
Import TextProcessor Chunking.

Lemma words_of_app (a b : list string) :
  words_of (a ++ b) = words_of a + words_of b.
Proof. apply sum_list_with_app. Qed.

Lemma words_of_snoc (a : list string) (s : string) :
  words_of (a ++ [s]) = words_of a + words s.
Proof. rewrite words_of_app. unfold words_of. simpl. lia. Qed.

Lemma step_state_of (self : t) (title : json) acc (s : string) :
  step self title (state_of title acc) s
  = state_of title (group_step self acc s).
Proof.
  destruct acc as [gs cur]. unfold step, group_step, state_of. simpl.
  destruct ((chunk_size self <? Z.of_nat (words_of cur + words s))%Z
            && nonempty cur) eqn:E; simpl.
  - rewrite map_app, words_of_snoc. simpl. unfold chunk_of at 3.
    f_equal. f_equal. unfold overlap_sentences.
    destruct ((0 <? chunk_overlap self)%Z && (1 <? length cur)%nat); reflexivity.
  - now rewrite words_of_snoc.
Qed.

Lemma fold_state_of (self : t) (title : json) (l : list string) acc :
  fold_left (step self title) l (state_of title acc)
  = state_of title (fold_left (group_step self) l acc).
Proof.
  revert acc. induction l as [|s l IH]; intros acc; simpl.
  - reflexivity.
  - now rewrite step_state_of, IH.
Qed.

Lemma finish_state_of (title : json) acc :
  finish title (state_of title acc) = map (chunk_of title) (close_groups acc).
Proof.
  destruct acc as [gs cur]. unfold finish, close_groups, state_of. simpl.
  destruct (nonempty cur); [|reflexivity].
  now rewrite map_app.
Qed.

(** [chunk_text] emits one chunk for each group of sentences. *)
Lemma chunk_text_groups (self : t) (text : string) (title : json) :
  chunk_text self text title
  = map (chunk_of title) (sentence_groups self (Py.re_split_sentences text)).
Proof.
  unfold chunk_text, sentence_groups.
  change initial with (state_of title ([], [])).
  now rewrite fold_state_of, finish_state_of.
Qed.

End Groups.

(** ** The sentence splitter *)

Section Sentences.
Import Py Chunking.

Lemma re_split_from_nonempty (b : bool) (s : string) : re_split_from b s <> [].
Proof.
  revert b. induction s as [|c s IH]; intros b; simpl; [discriminate|].
  destruct (b && isspace c); [apply IH|].
  destruct (is_terminator c && starts_with_space s); [discriminate|].
  specialize (IH false). destruct (re_split_from false s); [congruence|discriminate].
Qed.

Lemma ends_with_terminator_cons (c : ascii) (s : string) :
  ends_with_terminator s = true ->
  ends_with_terminator (String c s) = true.
Proof. destruct s; [discriminate | intros H; exact H]. Qed.

(** What [re_split_from] produces: a well split list whose first sentence
    starts like the text, and not with whitespace when the scan starts
    inside a separator. *)
Lemma re_split_from_spec (b : bool) (s : string) :
  well_split (re_split_from b s)
  /\ (b = true -> starts_with_space (hd "" (re_split_from b s)) = false)
  /\ (b = false ->
      starts_with_space (hd "" (re_split_from b s)) = starts_with_space s).
Proof.
  revert b. induction s as [|c s IH]; intros b.
  - simpl. auto.
  - simpl. destruct (b && isspace c) eqn:Hskip.
    + apply andb_prop in Hskip as [-> _].
      destruct (IH true) as (Hw & Hs & _). repeat split; auto. discriminate.
    + destruct (is_terminator c && starts_with_space s) eqn:Hcut.
      * apply andb_prop in Hcut as [Hterm _].
        destruct (IH true) as (Hw & Hs & _).
        pose proof (re_split_from_nonempty true s) as Hne.
        destruct (re_split_from true s) as [|x r]; [congruence|].
        simpl in *. rewrite Hterm, (terminator_not_space c Hterm).
        repeat split; auto; apply Hw.
      * destruct (IH false) as (Hw & _ & Hs). specialize (Hs eq_refl).
        pose proof (re_split_from_nonempty false s) as Hne.
        destruct (re_split_from false s) as [|x r]; [congruence|].
        simpl in Hs. cbn [cons_first hd starts_with_space].
        split; [|split].
        -- cbn [well_split] in *. destruct Hw as [Hu Hr].
           split.
           ++ cbn [uncut]. rewrite Hs, Hcut, Hu. reflexivity.
           ++ destruct r as [|y r']; [exact I|].
              destruct Hr as (He & Hy & Hr). split; [|split]; auto.
              now apply ends_with_terminator_cons.
        -- intros ->. simpl in Hskip. exact Hskip.
        -- reflexivity.
Qed.

Lemma re_split_sentences_well_split (text : string) :
  well_split (re_split_sentences text).
Proof. apply re_split_from_spec. Qed.

(** A text in which there is nothing to cut is one sentence. *)
Lemma re_split_from_uncut (b : bool) (s : string) :
  uncut s = true ->
  (b = true -> starts_with_space s = false) ->
  re_split_from b s = [s].
Proof.
  revert b. induction s as [|c s IH]; intros b Hu Hb; [reflexivity|].
  simpl in *. apply andb_prop in Hu as [Hc Hu].
  apply negb_true_iff in Hc.
  assert (Hskip : b && isspace c = false)
    by (destruct b; [exact (Hb eq_refl) | reflexivity]).
  rewrite Hskip, Hc, (IH false Hu) by discriminate. reflexivity.
Qed.

(** A sentence that ends with a terminator, followed by a space, is cut off
    from what follows. *)
Lemma re_split_from_sentence (b : bool) (s t : string) :
  uncut s = true ->
  ends_with_terminator s = true ->
  (b = true -> starts_with_space s = false) ->
  re_split_from b (s +:+ String " " t) = s :: re_split_from true t.
Proof.
  revert b. induction s as [|c s IH]; intros b Hu He Hb; [discriminate|].
  cbn [uncut] in Hu. apply andb_prop in Hu as [Hc Hu].
  apply negb_true_iff in Hc.
  assert (Hskip : b && isspace c = false)
    by (destruct b; [exact (Hb eq_refl) | reflexivity]).
  destruct s as [|d s].
  - simpl in He. simpl. rewrite Hskip, He. simpl. reflexivity.
  - change (String c (String d s) +:+ String " " t)
      with (String c (String d s +:+ String " " t)).
    cbn [re_split_from]. rewrite Hskip.
    replace (starts_with_space (String d s +:+ String " " t))
      with (starts_with_space (String d s)) by reflexivity.
    rewrite Hc, (IH false Hu) by (auto; discriminate). reflexivity.
Qed.

(** Joining well split sentences with spaces and splitting again gives the
    sentences back. *)
Lemma re_split_join (b : bool) (g : list string) :
  g <> [] ->
  well_split g ->
  (b = true -> starts_with_space (hd "" g) = false) ->
  re_split_from b (join " " g) = g.
Proof.
  revert b. induction g as [|s [|s' r] IH]; intros b Hne Hw Hb; [congruence| |].
  - simpl in *. apply re_split_from_uncut; tauto.
  - change (join " " (s :: s' :: r)) with (s +:+ String " " (join " " (s' :: r))).
    destruct Hw as (Hu & He & Hs' & Hw).
    rewrite re_split_from_sentence by auto.
    f_equal. apply IH; [discriminate | exact Hw | intros _; exact Hs'].
Qed.

Lemma well_split_app_r (a l : list string) :
  well_split (a ++ l) -> well_split l.
Proof.
  induction a as [|x a IH]; [auto|].
  simpl. intros [_ H]. apply IH.
  destruct (a ++ l); [exact I | apply H].
Qed.

Lemma well_split_app_l (l b : list string) :
  l <> [] -> well_split (l ++ b) -> well_split l.
Proof.
  induction l as [|x l IH]; [congruence|]. intros _.
  simpl. intros [Hu H]. split; [exact Hu|].
  destruct l as [|y l]; [exact I|].
  simpl in H. destruct H as (He & Hy & Hw).
  split; [exact He | split; [exact Hy | apply IH; [discriminate | exact Hw]]].
Qed.

Lemma well_split_segment (a g b : list string) :
  g <> [] -> well_split (a ++ g ++ b) -> well_split g.
Proof.
  intros Hne H. apply well_split_app_r in H. now apply well_split_app_l in H.
Qed.

End Sentences.

(** ** The invariant of the loop *)

Section LoopInvariant.
Import TextProcessor Chunking.
Variable self : t.

Lemma last_from_snoc {A : Type} (prev : A) (l : list A) (x : A) :
  last_from prev (l ++ [x]) = x.
Proof. revert prev. induction l as [|y l IH]; intros prev; simpl; auto. Qed.

Lemma without_overlaps_from_snoc prev gs g :
  without_overlaps_from self prev (gs ++ [g])
  = without_overlaps_from self prev gs
    ++ drop (overlap_count self (last_from prev gs)) g.
Proof.
  revert prev. induction gs as [|x gs IH]; intros prev; simpl.
  - now rewrite app_nil_r.
  - now rewrite IH, app_assoc.
Qed.

Lemma overlaps_carried_from_snoc prev gs g :
  overlaps_carried_from self prev (gs ++ [g])
  <-> overlaps_carried_from self prev gs
      /\ take (overlap_count self (last_from prev gs)) g
         = overlap_sentences self (last_from prev gs).
Proof.
  revert prev. induction gs as [|x gs IH]; intros prev; simpl.
  - tauto.
  - rewrite IH. tauto.
Qed.

Lemma within_window_from_snoc prev (cs : list (list string * nat)) g n :
  within_window_from self prev (cs ++ [(g, n)])
  <-> within_window_from self prev cs
      /\ ((Z.of_nat n <= chunk_size self)%Z
          \/ length g = S (overlap_count self (last_from prev (map fst cs)))).
Proof.
  revert prev. induction cs as [|[x m] cs IH]; intros prev; simpl.
  - tauto.
  - rewrite IH. tauto.
Qed.

Lemma overlap_sentences_nil : overlap_sentences self [] = [].
Proof.
  unfold overlap_sentences. simpl. now rewrite andb_false_r.
Qed.

Lemma overlap_sentences_suffix (cur : list string) :
  exists a, cur = a ++ overlap_sentences self cur.
Proof.
  unfold overlap_sentences, Py.last_n.
  destruct ((0 <? chunk_overlap self)%Z && (1 <? length cur)%nat).
  - eexists. symmetry. apply take_drop.
  - exists cur. now rewrite app_nil_r.
Qed.

Lemma invariant_initial : invariant self [] [] [].
Proof.
  split; simpl; auto.
  - unfold overlap_count. now rewrite overlap_sentences_nil.
  - unfold overlap_count. rewrite overlap_sentences_nil. auto.
  - now exists [].
  - congruence.
Qed.

Lemma segment_snoc {A : Type} (g l : list A) (x : A) :
  segment g l -> segment g (l ++ [x]).
Proof.
  intros (a & b & ->). exists a, (b ++ [x]). now rewrite <- !app_assoc.
Qed.

(** One turn of the loop keeps the invariant. *)
Lemma invariant_step (read : list string) groups current (s : string) :
  invariant self read groups current ->
  invariant self (read ++ [s]) (group_step self (groups, current) s).1
    (group_step self (groups, current) s).2.
Proof.
  intros [Hfirst Hread Hcarried Hclosed [pre Hcur] Hwin Hwcur].
  apply overlaps_carried_from_snoc in Hcarried as [Hc1 Hc2].
  rewrite without_overlaps_from_snoc in Hread.
  unfold group_step.
  destruct ((chunk_size self <? Z.of_nat (words_of current + words s))%Z
            && nonempty current) eqn:E; simpl.
  - apply andb_prop in E as [_ Hne].
    assert (Hcne : current <> []) by (destruct current; [discriminate | congruence]).
    split.
    + intros H. now destruct (overlap_sentences self current).
    + rewrite !without_overlaps_from_snoc, !last_from_snoc, Hread.
      unfold overlap_count. now rewrite drop_app_length.
    + apply overlaps_carried_from_snoc. split.
      * apply overlaps_carried_from_snoc. auto.
      * rewrite last_from_snoc. unfold overlap_count. now rewrite take_app_length.
    + apply Forall_app. split.
      * eapply Forall_impl; [exact Hclosed|].
        intros g [Hg Hseg]. split; [exact Hg | now apply segment_snoc].
      * constructor; [|constructor]. split; [exact Hcne|].
        exists pre, [s]. now rewrite Hcur, <- app_assoc.
    + destruct (overlap_sentences_suffix current) as [a Ha].
      exists (pre ++ a). rewrite Hcur. rewrite Ha at 1.
      now rewrite <- !app_assoc.
    + rewrite map_app. simpl. apply within_window_from_snoc. split; [exact Hwin|].
      rewrite map_map. simpl. rewrite map_id. auto.
    + intros _. right. rewrite last_from_snoc, length_app. simpl.
      unfold overlap_count. lia.
  - assert (Hlen : overlap_count self (last_from [] groups) <= length current).
    { pose proof (f_equal length Hc2) as HL. rewrite length_take in HL.
      unfold overlap_count in *. lia. }
    split.
    + intros H. now destruct current.
    + rewrite without_overlaps_from_snoc, <- Hread.
      rewrite drop_app_le by exact Hlen. now rewrite app_assoc.
    + apply overlaps_carried_from_snoc. split; [exact Hc1|].
      rewrite take_app_le by exact Hlen. exact Hc2.
    + eapply Forall_impl; [exact Hclosed|].
      intros g [Hg Hseg]. split; [exact Hg | now apply segment_snoc].
    + exists pre. now rewrite Hcur, <- app_assoc.
    + exact Hwin.
    + intros _. destruct current as [|x current].
      * rewrite (Hfirst eq_refl). simpl. right.
        unfold overlap_count. now rewrite overlap_sentences_nil.
      * left. simpl in E. rewrite andb_true_r in E.
        apply Z.ltb_ge in E. rewrite words_of_snoc. exact E.
Qed.

Lemma invariant_fold (l read : list string) groups current :
  invariant self read groups current ->
  invariant self (read ++ l)
    (fold_left (group_step self) l (groups, current)).1
    (fold_left (group_step self) l (groups, current)).2.
Proof.
  revert read groups current. induction l as [|s l IH]; intros read gs cur H.
  - now rewrite app_nil_r.
  - cbn [fold_left]. replace (read ++ s :: l) with ((read ++ [s]) ++ l)
      by now rewrite <- app_assoc.
    destruct (group_step self (gs, cur) s) as [gs' cur'] eqn:E.
    apply IH. pose proof (invariant_step read gs cur s H) as H'.
    now rewrite E in H'.
Qed.

End LoopInvariant.

(** ** The chunks of a text *)

Section Chunks.
Import TextProcessor Chunking.
Variable self : t.

Lemma close_groups_spec (sentences : list string) :
  let groups := sentence_groups self sentences in
  without_overlaps self groups = sentences
  /\ overlaps_carried_from self [] groups
  /\ Forall (fun g => g <> [] /\ segment g sentences) groups
  /\ within_window_from self [] (map (fun g => (g, words_of g)) groups).
Proof.
  unfold sentence_groups.
  pose proof (invariant_fold self sentences [] [] [] (invariant_initial self)) as H.
  simpl in H.
  destruct (fold_left (group_step self) sentences ([], [])) as [gs cur].
  destruct H as [Hfirst Hread Hcarried Hclosed [pre Hcur] Hwin Hwcur].
  simpl in *. unfold close_groups, without_overlaps.
  destruct cur as [|x cur]; simpl.
  - rewrite (Hfirst eq_refl) in *. simpl in *.
    rewrite drop_nil in Hread. subst sentences. simpl.
    split; [reflexivity|]. split; [exact I|]. split; [constructor | exact I].
  - split; [exact Hread|]. split; [exact Hcarried|]. split.
    + apply Forall_app. split; [exact Hclosed|].
      constructor; [|constructor]. split; [discriminate|].
      exists pre, []. now rewrite app_nil_r.
    + rewrite map_app. simpl. apply within_window_from_snoc.
      split; [exact Hwin|]. rewrite map_map. simpl. rewrite map_id.
      apply Hwcur. discriminate.
Qed.

(** Reading the sentences of a chunk back from its text gives the group of
    sentences the chunk was made of. *)
Lemma sentences_of_chunk_text (text : string) (title : json) :
  map sentences_of (chunk_text self text title)
  = sentence_groups self (Py.re_split_sentences text).
Proof.
  rewrite chunk_text_groups, map_map.
  destruct (close_groups_spec (Py.re_split_sentences text))
    as (_ & _ & Hseg & _).
  induction Hseg as [|g gs [Hne (a & b & Hab)] _ IH]; [reflexivity|].
  simpl. rewrite IH. f_equal.
  unfold sentences_of, chunk_of. simpl.
  apply re_split_join; [exact Hne| |discriminate].
  apply (well_split_segment a g b Hne). rewrite <- Hab.
  apply re_split_sentences_well_split.
Qed.

Lemma words_join (g : list string) : words (Py.join " " g) = words_of g.
Proof.
  unfold words. rewrite split_join. unfold words_of.
  induction g as [|x g IH]; simpl; [reflexivity|].
  now rewrite length_app, IH.
Qed.

End Chunks.

(** ** Claims about [chunk_text] *)

Section ChunkClaims.
Import TextProcessor Chunking.

(** C9. Every chunk emitted by [chunk_text] has a [word_count] equal to the
    number of whitespace-delimited tokens of its [text]. *)
Theorem chunk_word_count (self : t) (text : string) (title : json) :
  Forall (fun c => word_count c = length (Py.split (TextProcessor.text c)))
    (chunk_text self text title).
Proof.
  rewrite chunk_text_groups. apply Forall_map, Forall_forall.
  intros g _. simpl. symmetry. apply words_join.
Qed.

(** C3. For every text and every configuration, the sentences of the chunks
    of [chunk_text], with the sentences each chunk repeats from the end of
    the chunk before it removed, are the sentences of the text in their
    order; what is removed from a chunk is the run of sentences that
    [chunk_text] carried over. *)
Theorem chunk_text_keeps_sentences (self : t) (text : string) (title : json) :
  let groups := map sentences_of (chunk_text self text title) in
  without_overlaps self groups = Py.re_split_sentences text
  /\ overlaps_carried_from self [] groups.
Proof.
  simpl. rewrite sentences_of_chunk_text.
  destruct (close_groups_spec self (Py.re_split_sentences text))
    as (H1 & H2 & _). auto.
Qed.

(** C2, as stated, fails: with a window of 4 words and an overlap of one
    sentence, the cleaned text below gives a last chunk of two sentences and
    6 words. *)
Lemma chunk_exceeds_window :
  let self := {| chunk_size := 4; chunk_overlap := 1 |} in
  let text := "a. b. c d e. f g h." in
  clean_text text = text
  /\ ~ Forall (fun c => (Z.of_nat (word_count c) <= chunk_size self)%Z
                        \/ single_long_sentence self c)
       (chunk_text self text (JStr "A")).
Proof.
  split; [reflexivity|].
  intros H.
  apply (proj1 (List.Forall_forall _ _)) with (x := Chunk "c d e. f g h." 6 (JStr "A")) in H.
  - destruct H as [H | [H _]]; [simpl in H; lia | vm_compute in H; discriminate].
  - vm_compute. tauto.
Qed.

(** The window of [chunk_text], with the chunks that may exceed it. *)
Lemma chunks_within_window (self : t) (text : string) (title : json) :
  within_window self (chunk_text self text title).
Proof.
  unfold within_window.
  destruct (close_groups_spec self (Py.re_split_sentences text))
    as (_ & _ & _ & Hwin).
  pose proof (sentences_of_chunk_text self text title) as Hs.
  rewrite chunk_text_groups in *.
  set (groups := sentence_groups self (Py.re_split_sentences text)) in *.
  replace (map (fun c => (sentences_of c, word_count c))
             (map (chunk_of title) groups))
    with (map (fun g => (g, words_of g)) groups); [exact Hwin|].
  clear Hwin. induction groups as [|g gs IH]; [reflexivity|].
  simpl in *. injection Hs as Hg Hgs. rewrite Hg, <- IH by exact Hgs.
  reflexivity.
Qed.

(** C2, amended. Every chunk emitted by [chunk_text] has at most
    [chunk_size] words, unless it is made of the sentences repeated from the
    chunk before it followed by exactly one more sentence (for the first
    chunk: of exactly one sentence). *)
Theorem chunk_text_within_window (self : t) (text : string) (title : json) :
  within_window self (chunk_text self text title).
Proof. apply chunks_within_window. Qed.

End ChunkClaims.

Section NoOverlap.
Import TextProcessor Chunking.

Lemma within_window_no_overlap (self : t) (prev : list string)
    (cs : list (list string * nat)) :
  (chunk_overlap self <= 0)%Z ->
  within_window_from self prev cs ->
  Forall (fun c => (Z.of_nat c.2 <= chunk_size self)%Z \/ length c.1 = 1) cs.
Proof.
  intros Hov. revert prev. induction cs as [|[g n] cs IH]; intros prev; simpl.
  - constructor.
  - intros [H Hrest]. constructor; [|now apply (IH g)].
    destruct H as [H|H]; [now left | right]. simpl. rewrite H.
    unfold overlap_count, overlap_sentences.
    replace (0 <? chunk_overlap self)%Z with false
      by (symmetry; apply Z.ltb_ge; lia).
    reflexivity.
Qed.

(** Without overlap the window is exceeded only by a chunk that is a single
    sentence of more than [chunk_size] words. *)
Lemma chunk_text_within_window_no_overlap (self : t) (text : string)
    (title : json) :
  (chunk_overlap self <= 0)%Z ->
  Forall (fun c => (Z.of_nat (word_count c) <= chunk_size self)%Z
                   \/ single_long_sentence self c)
    (chunk_text self text title).
Proof.
  intros Hov.
  pose proof (within_window_no_overlap self [] _ Hov
                (chunks_within_window self text title)) as H.
  apply Forall_map in H. eapply Forall_impl; [exact H|].
  intros c [Hc|Hc]; simpl in *; [now left|].
  destruct (Z_le_gt_dec (Z.of_nat (word_count c)) (chunk_size self));
    [now left | right]. split; [exact Hc | lia].
Qed.

End NoOverlap.

(** ** Sentences longer than the window *)

Section LongSentences.
Import TextProcessor Chunking.
Variable self : t.

Lemma nonempty_true {A : Type} (l : list A) : nonempty l = true <-> l <> [].
Proof. destruct l; simpl; split; congruence. Qed.

(** The closed groups only grow. *)
Lemma fold_groups_extend (l : list string) groups current :
  exists more,
    (fold_left (group_step self) l (groups, current)).1 = groups ++ more.
Proof.
  revert groups current. induction l as [|s l IH]; intros gs cur.
  - exists []. simpl. now rewrite app_nil_r.
  - cbn [fold_left]. unfold group_step at 2.
    destruct ((chunk_size self <? Z.of_nat (words_of cur + words s))%Z
              && nonempty cur).
    + destruct (IH (gs ++ [cur]) (overlap_sentences self cur ++ [s])) as [m Hm].
      exists ([cur] ++ m). rewrite Hm. now rewrite <- app_assoc.
    + apply IH.
Qed.

(** A current group that already exceeds the window is closed as it is. *)
Lemma fold_closes_long_group (l : list string) groups current :
  current <> [] ->
  (chunk_size self < Z.of_nat (words_of current))%Z ->
  exists more,
    close_groups (fold_left (group_step self) l (groups, current))
    = groups ++ current :: more.
Proof.
  intros Hne Hlong. destruct l as [|s l].
  - exists []. simpl. now rewrite (proj2 (nonempty_true current) Hne).
  - cbn [fold_left]. unfold group_step at 2.
    replace ((chunk_size self <? Z.of_nat (words_of current + words s))%Z
             && nonempty current) with true.
    2: { symmetry. apply andb_true_intro. split.
         - apply Z.ltb_lt. lia.
         - now apply nonempty_true. }
    destruct (fold_groups_extend l (groups ++ [current])
                (overlap_sentences self current ++ [s])) as [m Hm].
    destruct (fold_left (group_step self) l
                (groups ++ [current], overlap_sentences self current ++ [s]))
      as [gs' cur']. simpl in Hm. subst gs'. unfold close_groups.
    destruct (nonempty cur').
    + exists (m ++ [cur']). now rewrite <- !app_assoc.
    + exists m. now rewrite <- !app_assoc.
Qed.

(** The groups around a sentence of more than [chunk_size] words. *)
Lemma long_sentence_group (before after : list string) (s : string) :
  (chunk_size self < Z.of_nat (words s))%Z ->
  exists gs more,
    sentence_groups self (before ++ s :: after)
    = gs ++ (overlap_sentences self (last_from [] gs) ++ [s]) :: more
    /\ without_overlaps self
         (gs ++ [overlap_sentences self (last_from [] gs) ++ [s]])
       = before ++ [s].
Proof.
  intros Hlong. unfold sentence_groups.
  replace (before ++ s :: after) with (before ++ [s] ++ after) by reflexivity.
  rewrite !fold_left_app.
  pose proof (invariant_fold self before [] [] [] (invariant_initial self)) as H.
  simpl in H.
  destruct (fold_left (group_step self) before ([], [])) as [gs cur].
  simpl in H. pose proof (invariant_step self before gs cur s H) as H'.
  pose proof (inv_first _ _ _ _ H) as Hfirst.
  cbn [fold_left]. unfold group_step in *.
  destruct cur as [|x cur].
  - rewrite (Hfirst eq_refl) in *. rewrite andb_false_r in *. simpl in H'.
    exists [].
    destruct (fold_closes_long_group after [] [s]) as [more Hmore];
      [discriminate | unfold words_of; simpl; lia |].
    exists more. simpl. rewrite overlap_sentences_nil. simpl.
    split; [exact Hmore | exact (inv_read _ _ _ _ H')].
  - replace ((chunk_size self <? Z.of_nat (words_of (x :: cur) + words s))%Z
             && nonempty (x :: cur)) with true in *.
    2: { symmetry. apply andb_true_intro. split; [|reflexivity].
         apply Z.ltb_lt. lia. }
    simpl in H'.
    destruct (fold_closes_long_group after (gs ++ [x :: cur])
                (overlap_sentences self (x :: cur) ++ [s])) as [more Hmore].
    + now destruct (overlap_sentences self (x :: cur)).
    + rewrite words_of_snoc. lia.
    + exists (gs ++ [x :: cur]), more. rewrite last_from_snoc.
      split; [exact Hmore | exact (inv_read _ _ _ _ H')].
Qed.

End LongSentences.

Section LongSentenceClaim.
Import TextProcessor Chunking.

(** C8, as stated, fails: with a window of 2 words and an overlap of one
    sentence, the sentence of 3 words below is emitted only together with
    the sentence repeated from the chunk before. *)
Lemma long_sentence_not_alone :
  let self := {| chunk_size := 2; chunk_overlap := 1 |} in
  let text := "a. b. c d e." in
  In "c d e." (Py.re_split_sentences text)
  /\ (chunk_size self < Z.of_nat (words "c d e."))%Z
  /\ chunk_text self text (JStr "A")
     = [Chunk "a. b." 2 (JStr "A"); Chunk "b. c d e." 4 (JStr "A")]
  /\ ~ emitted_alone (chunk_text self text (JStr "A")) "c d e.".
Proof.
  split; [vm_compute; tauto|]. split; [vm_compute; reflexivity|].
  split; [reflexivity|].
  intros (c & Hin & Htext). vm_compute in Hin.
  destruct Hin as [<- | [<- | []]]; discriminate.
Qed.

(** C8, amended. A sentence of more than [chunk_size] words is never split:
    the chunk in which it first appears ends with it, and holds before it
    only the sentences repeated from the chunk emitted just before (none
    when no sentence is repeated, and the sentence is then a chunk by
    itself). *)
Theorem long_sentence_closes_chunk (self : t) (text : string) (title : json)
    (before after : list string) (s : string) :
  Py.re_split_sentences text = before ++ s :: after ->
  (chunk_size self < Z.of_nat (words s))%Z ->
  exists cs1 c cs2,
    chunk_text self text title = cs1 ++ c :: cs2
    /\ sentences_of c
       = overlap_sentences self (last_from [] (map sentences_of cs1)) ++ [s]
    /\ TextProcessor.text c
       = Py.join " "
           (overlap_sentences self (last_from [] (map sentences_of cs1)) ++ [s])
    /\ without_overlaps self (map sentences_of (cs1 ++ [c])) = before ++ [s].
Proof.
  intros Hsplit Hlong.
  destruct (long_sentence_group self before after s Hlong)
    as (gs & more & Hgroups & Hread).
  pose proof (sentences_of_chunk_text self text title) as Hs.
  rewrite chunk_text_groups, Hsplit, Hgroups in *.
  rewrite !map_app in Hs. cbn [map] in Hs.
  apply app_inj_1 in Hs as [Hs1 Hs2]; [|now rewrite !length_map].
  injection Hs2 as Hc _.
  exists (map (chunk_of title) gs),
    (chunk_of title (overlap_sentences self (last_from [] gs) ++ [s])),
    (map (chunk_of title) more).
  rewrite map_app. cbn [map]. rewrite Hs1, Hc.
  split; [reflexivity|]. split; [reflexivity|]. split; [reflexivity|].
  rewrite map_app. cbn [map]. rewrite Hs1, Hc. exact Hread.
Qed.

(** A text, a window and a sentence to which C8 as amended applies. *)
Lemma long_sentence_closes_chunk_witness :
  exists cs1 c cs2,
    chunk_text {| chunk_size := 2; chunk_overlap := 1 |} "a. b. c d e."
      (JStr "A") = cs1 ++ c :: cs2
    /\ sentences_of c
       = overlap_sentences {| chunk_size := 2; chunk_overlap := 1 |}
           (last_from [] (map sentences_of cs1)) ++ ["c d e."]
    /\ TextProcessor.text c
       = Py.join " "
           (overlap_sentences {| chunk_size := 2; chunk_overlap := 1 |}
              (last_from [] (map sentences_of cs1)) ++ ["c d e."])
    /\ without_overlaps {| chunk_size := 2; chunk_overlap := 1 |}
         (map sentences_of (cs1 ++ [c])) = ["a."; "b."] ++ ["c d e."].
Proof.
  apply (long_sentence_closes_chunk {| chunk_size := 2; chunk_overlap := 1 |}
           "a. b. c d e." (JStr "A") ["a."; "b."] [] "c d e.").
  - reflexivity.
  - vm_compute. reflexivity.
Defined.

End LongSentenceClaim.

(** ** Texts without content *)

Section EmptyText.
Import TextProcessor Chunking.

Lemma sub_whitespace_from_spaces (s : string) :
  forallb Py.isspace (list_ascii_of_string s) = true ->
  Py.sub_whitespace_from true s = ""
  /\ Py.sub_whitespace_from false s = if Py.truthy_str s then " " else "".
Proof.
  induction s as [|c s IH]; simpl; [auto|].
  intros H. apply andb_prop in H as [Hc Hs]. rewrite Hc.
  destruct (IH Hs) as [IH1 _]. now rewrite IH1.
Qed.

Lemma clean_text_spaces (raw : string) :
  forallb Py.isspace (list_ascii_of_string raw) = true ->
  clean_text raw = "".
Proof.
  intros H. unfold clean_text. destruct raw as [|c raw]; [reflexivity|].
  cbn [Py.truthy_str negb]. unfold Py.sub_whitespace at 2.
  destruct (sub_whitespace_from_spaces _ H) as [_ ->]. reflexivity.
Qed.

Lemma chunk_text_empty (self : t) (title : json) :
  chunk_text self "" title = [ {| text := ""; word_count := 0; title := title |} ].
Proof.
  unfold chunk_text, finish, step. simpl. now rewrite andb_false_r.
Qed.

(** C7 fails on the code. For every empty or whitespace-only text, cleaning
    gives the empty text, and [chunk_text] emits one chunk for it: a chunk
    with the empty text and no word, where the specification has no chunk
    at all. *)
Theorem blank_text_yields_one_chunk (self : t) (raw : string) (title : json) :
  forallb Py.isspace (list_ascii_of_string raw) = true ->
  chunk_text self (clean_text raw) title
  = [ {| text := ""; word_count := 0; title := title |} ].
Proof.
  intros H. rewrite (clean_text_spaces raw H). apply chunk_text_empty.
Qed.

(** The empty text and a text of three spaces, under the default
    configuration. *)
Lemma blank_text_yields_one_chunk_witness :
  chunk_text TextProcessor.default (clean_text "") (JStr "Untitled")
  = [ {| text := ""; word_count := 0; title := JStr "Untitled" |} ]
  /\ chunk_text TextProcessor.default (clean_text "   ") (JStr "Untitled")
     = [ {| text := ""; word_count := 0; title := JStr "Untitled" |} ].
Proof.
  split.
  - apply (blank_text_yields_one_chunk TextProcessor.default "" (JStr "Untitled")).
    reflexivity.
  - apply (blank_text_yields_one_chunk TextProcessor.default "   " (JStr "Untitled")).
    reflexivity.
Defined.

End EmptyText.

(** ** The similarity query *)

Section SearchClaims.
Import Store Search Statements.
Variable cosine_distance : vector -> vector -> Q.

Lemma insert_desc_Forall (P : hit -> Prop) (h : hit) (l : list hit) :
  P h -> Forall P l -> Forall P (insert_desc h l).
Proof.
  intros Hh Hl. induction Hl as [|x l Hx Hl IH]; simpl.
  - now constructor.
  - destruct (Qle_bool (similarity_score x) (similarity_score h));
      repeat constructor; auto.
Qed.

Lemma insert_desc_sorted (h : hit) (l : list hit) :
  StronglySorted by_score_desc l ->
  StronglySorted by_score_desc (insert_desc h l).
Proof.
  induction 1 as [|x l Hs IH Hx]; simpl.
  - repeat constructor.
  - destruct (Qle_bool (similarity_score x) (similarity_score h)) eqn:E.
    + apply Qle_bool_iff in E. constructor; [now constructor|].
      constructor; [exact E|].
      eapply Forall_impl; [exact Hx|]. intros y Hy. unfold by_score_desc in *.
      now apply Qle_trans with (similarity_score x).
    + constructor; [exact IH|]. apply insert_desc_Forall; [|exact Hx].
      unfold by_score_desc. apply Qlt_le_weak, Qnot_le_lt.
      intros H. apply Qle_bool_iff in H. congruence.
Qed.

Lemma order_by_score_desc_sorted (l : list hit) :
  StronglySorted by_score_desc (order_by_score_desc l).
Proof.
  induction l as [|h l IH]; simpl; [constructor | now apply insert_desc_sorted].
Qed.

Lemma order_by_score_desc_Forall (P : hit -> Prop) (l : list hit) :
  Forall P l -> Forall P (order_by_score_desc l).
Proof.
  induction 1; simpl; [constructor | now apply insert_desc_Forall].
Qed.

Lemma StronglySorted_take {A : Type} (R : A -> A -> Prop) (n : nat) (l : list A) :
  StronglySorted R l -> StronglySorted R (take n l).
Proof.
  intros H. revert n. induction H as [|x l Hs IH Hx]; intros [|n]; simpl;
    try constructor; auto.
  now apply Forall_take.
Qed.

(** C1. When [semantic_search] returns, no result has a score below the
    threshold, there are at most [max_results] results, the scores do not
    increase along the results, and the score of a result is one minus the
    cosine distance between its stored vector and the query; it raises only
    when the engine fails or [max_results] is negative. *)
Theorem semantic_search_ranked (fault : query_fault) (table : list row)
    (query_embedding : vector) (max_results : Z) (similarity_threshold : Q) :
  match semantic_search cosine_distance fault table query_embedding
          max_results similarity_threshold with
  | Ok hits =>
      Forall (fun h => (similarity_threshold <= similarity_score h)%Q) hits
      /\ (Z.of_nat (length hits) <= max_results)%Z
      /\ StronglySorted by_score_desc hits
      /\ Forall (fun h =>
                   similarity_score h
                   = (1 - cosine_distance (embedding (source h)) query_embedding)%Q
                   /\ In (source h) table) hits
  | Raise _ => fault <> QueryOk \/ (max_results < 0)%Z
  end.
Proof.
  unfold semantic_search. destruct fault; try (left; discriminate).
  destruct (max_results <? 0)%Z eqn:E; [right; now apply Z.ltb_lt|].
  apply Z.ltb_ge in E. unfold select.
  split; [|split; [|split]].
  - apply Forall_take, order_by_score_desc_Forall, Forall_map, Forall_forall.
    intros r Hr. apply list_elem_of_filter in Hr as [Hr _].
    now apply Qle_bool_iff.
  - rewrite length_take. lia.
  - apply StronglySorted_take, order_by_score_desc_sorted.
  - apply Forall_take, order_by_score_desc_Forall, Forall_map, Forall_forall.
    intros r Hr. apply list_elem_of_filter in Hr as [_ Hr].
    split; [reflexivity | now apply list_elem_of_In].
Qed.

End SearchClaims.

(** ** Insertion of the chunks of a document *)

Section Insertion.
Import Store DatabaseManager.

(** The loop over the chunks never touches the committed rows, raises
    nothing but the error of the engine when the document is a dictionary,
    and on success has written one row for each pair, in order. *)
Lemma insert_rows_spec (fault : insert_fault) (now : string)
    (m : gmap string json) (title paper_id : string) (total : nat)
    (pairs : list (TextProcessor.chunk * vector)) (i : nat) (conn : connection) :
  let out := insert_rows fault now (JObj m) title paper_id total i pairs conn in
  committed out.1 = committed conn
  /\ (forall e, out.2 = Raise e -> e = PostgreSQLError)
  /\ (out.2 = Ok () ->
      exists rows,
        pending out.1 = pending conn ++ rows
        /\ map text_chunk rows = map (fun p => TextProcessor.text p.1) pairs
        /\ map chunk_index rows = seq i (length pairs))
  /\ (forall j, fault = ExecuteFails j -> i <= j < i + length pairs ->
      out.2 = Raise PostgreSQLError).
Proof.
  revert i conn. induction pairs as [|[chunk embedding] pairs IH]; intros i conn.
  - simpl. split; [reflexivity|]. split; [discriminate|]. split.
    + intros _. exists []. now rewrite app_nil_r.
    + intros j _ Hj. lia.
  - cbn [insert_rows row_of dict_get mbind result_bind mret result_ret].
    destruct (execute_fails fault i) eqn:Hf.
    + simpl. split; [reflexivity|]. split; [congruence|].
      split; [discriminate|]. auto.
    + match goal with |- context [execute_insert conn ?r] => set (r0 := r) end.
      specialize (IH (S i) (execute_insert conn r0)).
      destruct IH as (Hc & He & Hok & Hfail).
      split; [exact Hc|]. split; [exact He|]. split.
      * intros H. destruct (Hok H) as (rows & Hp & Ht & Hi).
        exists (r0 :: rows). simpl in *.
        rewrite Hp, Ht, Hi, <- app_assoc. auto.
      * intros j -> Hj. simpl in Hf. apply Nat.eqb_neq in Hf.
        apply (Hfail j eq_refl). simpl in Hj. lia.
Qed.

(** C5. For every document, every list of chunks with one embedding per
    chunk, and whatever the database does, [insert_paper_chunks] either
    commits one row per chunk, in order, after the rows of the table, or
    raises and leaves the table as it was; it raises when an [execute] of the
    batch fails. *)
Theorem insert_all_or_nothing (fault : insert_fault) (now : string)
    (paper_data : json) (chunks : list TextProcessor.chunk)
    (embeddings : list vector) (table : list row) :
  length embeddings = length chunks ->
  let out := insert_paper_chunks fault now paper_data chunks embeddings table in
  ((out.2 = Ok ()
    /\ exists rows,
         out.1 = table ++ rows
         /\ map text_chunk rows = map TextProcessor.text chunks
         /\ map chunk_index rows = seq 0 (length chunks))
   \/ (out.1 = table /\ exists e, out.2 = Raise e))
  /\ (forall i, fault = ExecuteFails i -> i < length chunks ->
      out.1 = table /\ exists e, out.2 = Raise e).
Proof.
  intros Hlen. unfold insert_paper_chunks.
  assert (Hzip : map (fun p => TextProcessor.text p.1) (zip chunks embeddings)
                 = map TextProcessor.text chunks).
  { rewrite <- (map_map fst TextProcessor.text). f_equal.
    apply fst_zip. lia. }
  assert (Hzlen : length (zip chunks embeddings) = length chunks).
  { rewrite length_zip. lia. }
  unfold insert_try.
  destruct paper_data as [| | | |l|m]; try (destruct fault; raises_unchanged).
  cbn [subscript_title].
  destruct (m !! "title") as [v|] eqn:Ht; [|destruct fault; raises_unchanged].
  destruct v as [| | |title| |]; try (destruct fault; raises_unchanged).
  pose proof (insert_rows_spec fault now m title
                (paper_id_stem title +:+ "_" +:+ now) (length chunks)
                (zip chunks embeddings) 0 (connect table)) as H.
  cbv zeta in H. rewrite Hzip, Hzlen in H.
  destruct (insert_rows fault now (JObj m) title
              (paper_id_stem title +:+ "_" +:+ now) (length chunks) 0
              (zip chunks embeddings) (connect table)) as [conn r].
  simpl in H. destruct H as (Hc & He & Hok & Hfail).
  destruct r as [[]|e].
  - destruct (Hok eq_refl) as (rows & Hp & Ht' & Hi).
    destruct fault; try raises_unchanged; simpl.
    + split; [|discriminate]. left. split; [reflexivity|].
      exists rows. rewrite Hc, Hp. auto.
    + split; [|intros j Hj Hlt; injection Hj as ->;
               specialize (Hfail j eq_refl ltac:(lia)); discriminate].
      left. split; [reflexivity|]. exists rows. rewrite Hc, Hp. auto.
  - rewrite (He e eq_refl). destruct fault; raises_unchanged.
Qed.

End Insertion.

(** A document with a title, one chunk and its embedding, inserted into an
    empty table. *)
Lemma insert_all_or_nothing_witness :
  let out :=
    DatabaseManager.insert_paper_chunks DatabaseManager.NoFault "20240101_000000"
      (JObj {[ "title" := JStr "A" ]})
      [TextProcessor.Chunk "One." 1 (JStr "A")] [[1%Q]] [] in
  ((out.2 = Ok ()
    /\ exists rows,
         out.1 = [] ++ rows
         /\ map Store.text_chunk rows
            = map TextProcessor.text [TextProcessor.Chunk "One." 1 (JStr "A")]
         /\ map Store.chunk_index rows = seq 0 1)
   \/ (out.1 = [] /\ exists e, out.2 = Raise e))
  /\ (forall i, DatabaseManager.NoFault = DatabaseManager.ExecuteFails i ->
      i < 1 -> out.1 = [] /\ exists e, out.2 = Raise e).
Proof.
  apply (insert_all_or_nothing DatabaseManager.NoFault "20240101_000000"
           (JObj {[ "title" := JStr "A" ]})
           [TextProcessor.Chunk "One." 1 (JStr "A")] [[1%Q]] []).
  reflexivity.
Defined.

(** ** Loading the data file *)

Section Loading.
Import Store Pipeline Statements.

Lemma load_lines_spec (loads : string -> option json) (lines : list string)
    (line_num : nat) (papers : list json) (failed : list failure) :
  load_lines loads line_num lines papers failed
  = (papers ++ parsed_lines loads lines,
     failed ++ map LineError (failed_line_numbers loads line_num lines)).
Proof.
  revert line_num papers failed.
  induction lines as [|line lines IH]; intros n papers failed; simpl.
  - now rewrite !app_nil_r.
  - unfold parsed_lines. simpl. destruct (loads (Py.strip line)); rewrite IH.
    + now rewrite <- app_assoc.
    + simpl. now rewrite <- app_assoc.
Qed.

Lemma parsed_lines_app (loads : string -> option json) (a b : list string) :
  parsed_lines loads (a ++ b) = parsed_lines loads a ++ parsed_lines loads b.
Proof. apply omap_app. Qed.

Lemma parsed_lines_all (loads : string -> option json) (l : list string) :
  Forall (fun line => is_Some (loads (Py.strip line))) l ->
  length (parsed_lines loads l) = length l
  /\ forall n, failed_line_numbers loads n l = [].
Proof.
  induction 1 as [|line l [v Hv] _ [IH1 IH2]]; [auto|].
  unfold parsed_lines in *. simpl. rewrite Hv. simpl. auto.
Qed.

Lemma failed_line_numbers_app (loads : string -> option json)
    (a b : list string) (n : nat) :
  failed_line_numbers loads n (a ++ b)
  = failed_line_numbers loads n a
    ++ failed_line_numbers loads (n + length a) b.
Proof.
  revert n. induction a as [|x a IH]; intros n; simpl.
  - now rewrite Nat.add_0_r.
  - rewrite IH. replace (S n + length a) with (n + S (length a)) by lia.
    now destruct (loads (Py.strip x)).
Qed.

Lemma load_papers_spec (w : world) (st : state) (lines : list string) :
  data_file w = Some lines ->
  load_papers w st
  = ({| table := table st;
        failed_papers :=
          failed_papers st
          ++ map LineError (failed_line_numbers (json_loads w) 1 lines) |},
     Ok (parsed_lines (json_loads w) lines)).
Proof.
  intros Hfile. unfold load_papers. now rewrite Hfile, load_lines_spec.
Qed.

Lemma parsed_lines_malformed (loads : string -> option json)
    (line : string) (l : list string) (n : nat) :
  loads (Py.strip line) = None ->
  parsed_lines loads (line :: l) = parsed_lines loads l
  /\ failed_line_numbers loads n (line :: l)
     = n :: failed_line_numbers loads (S n) l.
Proof. intros H. unfold parsed_lines. simpl. now rewrite H. Qed.

(** C6. [load_papers] returns the documents of the lines that parse, in
    order, and appends to [failed_papers] one entry, with its line number,
    for each line that does not; it raises nothing when the file exists.
    When one line does not parse and the 10 other lines do, 10 documents are
    loaded, the same as without that line, and exactly one failure is
    recorded, with the number of that line. *)
Theorem load_papers_skips_malformed (w : world) (st : state)
    (lines : list string) :
  data_file w = Some lines ->
  load_papers w st
  = ({| table := table st;
        failed_papers :=
          failed_papers st
          ++ map LineError (failed_line_numbers (json_loads w) 1 lines) |},
     Ok (parsed_lines (json_loads w) lines))
  /\ forall (valid valid' : list string) (malformed : string),
       lines = valid ++ malformed :: valid' ->
       Forall (fun line => is_Some (json_loads w (Py.strip line)))
         (valid ++ valid') ->
       json_loads w (Py.strip malformed) = None ->
       length valid + length valid' = 10 ->
       length (parsed_lines (json_loads w) lines) = 10
       /\ parsed_lines (json_loads w) lines
          = parsed_lines (json_loads w) (valid ++ valid')
       /\ failed_line_numbers (json_loads w) 1 lines = [S (length valid)].
Proof.
  intros Hfile. split.
  - now apply load_papers_spec.
  - intros valid valid' malformed -> Hvalid Hbad Hten.
    apply Forall_app in Hvalid as [Hv Hv'].
    destruct (parsed_lines_all _ _ Hv) as [L1 F1].
    destruct (parsed_lines_all _ _ Hv') as [L2 F2].
    rewrite !parsed_lines_app, failed_line_numbers_app, F1.
    destruct (parsed_lines_malformed _ malformed valid' (1 + length valid) Hbad)
      as [-> ->].
    rewrite F2, length_app, L1, L2. simpl.
    split; [exact Hten|]. split; reflexivity.
Qed.

End Loading.

(** ** Runs over documents that are already stored *)

Section Rerun.
Import Store Pipeline Statements.

Lemma filter_papers_all_ingested (titles : gset string) (papers acc : list json) :
  Forall (already_ingested titles) papers ->
  filter_papers titles papers acc = Ok acc.
Proof.
  induction 1 as [|paper papers (m & s & -> & Ht & Hs) _ IH]; [reflexivity|].
  cbn [filter_papers not_processed dict_get mbind result_bind].
  rewrite Ht. simpl. rewrite bool_decide_eq_true_2 by exact Hs.
  exact IH.
Qed.

(** A run over documents whose titles are all in the set of stored titles
    stops before the processing loop. *)
Lemma run_all_ingested (tp : TextProcessor.t) (batch_size : Z)
    (w : world) (st : state) (lines : list string) (titles : gset string) :
  data_file w = Some lines ->
  DatabaseManager.get_processed_papers (titles_fault w) (table st) = Ok titles ->
  Forall (already_ingested titles) (parsed_lines (json_loads w) lines) ->
  exists st' o,
    run tp batch_size w st = (st', Ok o)
    /\ (o = NoPapers \/ o = AllProcessed)
    /\ table st' = table st.
Proof.
  intros Hfile Htitles Hall. unfold run.
  rewrite (load_papers_spec w st lines Hfile).
  destruct (TextProcessor.nonempty (parsed_lines (json_loads w) lines)); simpl.
  - rewrite Htitles. simpl.
    rewrite (filter_papers_all_ingested titles _ [] Hall). simpl. eauto 6.
  - eauto 6.
Qed.

(** On the set that the title query returns, whatever it is: when every
    document of the data file has a title in that set, the run ends before
    the processing loop (no document is processed) and leaves the table as
    it was. *)
Theorem rerun_processes_nothing (tp : TextProcessor.t) (batch_size : Z)
    (w : world) (st : state) (lines : list string) (titles : gset string) :
  data_file w = Some lines ->
  DatabaseManager.get_processed_papers (titles_fault w) (table st) = Ok titles ->
  Forall (already_ingested titles) (parsed_lines (json_loads w) lines) ->
  exists st' o,
    run tp batch_size w st = (st', Ok o)
    /\ (o = NoPapers \/ o = AllProcessed)
    /\ table st' = table st.
Proof. apply run_all_ingested. Qed.

(** The same on the table itself, when the title query succeeds: every
    document has the title of a stored row. *)
Lemma rerun_on_stored_titles (tp : TextProcessor.t) (batch_size : Z)
    (w : world) (st : state) (lines : list string) :
  data_file w = Some lines ->
  titles_fault w = DatabaseManager.SelectOk ->
  Forall (already_ingested (list_to_set (map title (table st))))
    (parsed_lines (json_loads w) lines) ->
  exists st' o,
    run tp batch_size w st = (st', Ok o)
    /\ (o = NoPapers \/ o = AllProcessed)
    /\ table st' = table st.
Proof.
  intros Hfile Hok Hall.
  apply (run_all_ingested tp batch_size w st lines
           (list_to_set (map title (table st))) Hfile); [|exact Hall].
  now rewrite Hok.
Qed.

(** C4, as stated, fails: the table holds one row, of the document A, and
    the data file holds the document A, so every document has the title of
    a stored row; but the statement of the title query fails, the set of
    titles is then empty, and the document is kept, processed and inserted
    a second time: one document processed, one chunk added, two rows. *)
Lemma rerun_after_failed_title_query :
  Forall (already_ingested (list_to_set (map title [Example.row_titled "A"])))
    (parsed_lines Example.loads_with_text ["{A"])
  /\ exists st',
       run TextProcessor.default 10
         (Example.world_with_failing_title_query ["{A"])
         {| table := [Example.row_titled "A"]; failed_papers := [] |}
       = (st', Ok (Completed 1 1))
       /\ map title (table st') = ["A"; "A"]
       /\ failed_papers st' = [].
Proof.
  split.
  - repeat constructor.
    exists (<[ "title" := JStr "A" ]> {[ "full_text" := JStr "One. Two." ]}), "A".
    split; [reflexivity|]. split; [reflexivity|]. set_solver.
  - eexists. split; [vm_compute; reflexivity|]. split; reflexivity.
Qed.

(** C4, amended. When every document of the data file has the title of a
    row of the table and the statement of the title query does not fail, the
    run processes no document and leaves the table as it was: it ends
    before the processing loop, or with the error of a refused connection
    before the filtering step. *)
Theorem rerun_keeps_store (tp : TextProcessor.t) (batch_size : Z)
    (w : world) (st : state) (lines : list string) :
  data_file w = Some lines ->
  titles_fault w <> DatabaseManager.SelectExecuteFails ->
  Forall (already_ingested (list_to_set (map title (table st))))
    (parsed_lines (json_loads w) lines) ->
  exists st' r,
    run tp batch_size w st = (st', r)
    /\ (r = Ok NoPapers \/ r = Ok AllProcessed \/ r = Raise PostgreSQLError)
    /\ table st' = table st.
Proof.
  intros Hfile Hfault Hall.
  destruct (titles_fault w) eqn:Hf; [| |congruence].
  - destruct (run_all_ingested tp batch_size w st lines
                (list_to_set (map title (table st))) Hfile)
      as (st' & o & Hrun & Ho & Ht); [now rewrite Hf | exact Hall |].
    exists st', (Ok o). split; [exact Hrun|]. split; [|exact Ht].
    destruct Ho as [-> | ->]; auto.
  - unfold run. rewrite (load_papers_spec w st lines Hfile).
    destruct (TextProcessor.nonempty (parsed_lines (json_loads w) lines));
      simpl; [rewrite Hf; simpl|]; eauto 7.
Qed.

End Rerun.

(** ** Documents without a title *)

Section Untitled.
Import Store Pipeline Statements.

Lemma insert_untitled (m : gmap string json) (fault : DatabaseManager.insert_fault)
    (now : string) (chunks : list TextProcessor.chunk)
    (embeddings : list vector) (table : list row) :
  m !! "title" = None ->
  exists e,
    DatabaseManager.insert_paper_chunks fault now (JObj m) chunks embeddings table
    = (table, Raise e).
Proof.
  intros Hnone.
  unfold DatabaseManager.insert_paper_chunks, DatabaseManager.insert_try.
  cbn [DatabaseManager.subscript_title]. rewrite Hnone.
  destruct fault; simpl; eauto.
Qed.

Lemma process_untitled (m : gmap string json) (tp : TextProcessor.t)
    (now : string) (ext : document_run) (st : state) :
  m !! "title" = None ->
  exists f, process_paper tp now ext (JObj m) st = (record_failure f st, Ok 0).
Proof.
  intros Hnone. destruct st as [table failed].
  unfold process_paper, process_paper_try.
  cbn [dict_get mbind result_bind mret result_ret]. rewrite Hnone. simpl default.
  destruct (add_field (JObj m) "abstract" (newline +:+ newline) "")
    as [text_content|e]; [|simpl; eauto].
  cbn [mbind result_bind].
  destruct (add_field (JObj m) "full_text" "" text_content)
    as [text_content'|e]; [|simpl; eauto].
  cbn [mbind result_bind mret result_ret slice_50].
  destruct (negb (Py.truthy_str (Py.strip text_content'))); [eauto|].
  destruct (negb (TextProcessor.nonempty _)); [eauto|].
  destruct (generate_embeddings ext _) as [embeddings|e]; [|simpl; eauto].
  match goal with
  | |- context [DatabaseManager.insert_paper_chunks ?f ?n ?p ?c ?e ?t] =>
      destruct (insert_untitled m f n c e t Hnone) as [e' ->]
  end.
  simpl. eauto.
Qed.

(** C10. A document without the key [title] is kept by the filtering step
    whatever the set of stored titles; its insertion raises and leaves the
    table as it was; [process_paper] returns 0 for it, with the table
    unchanged and one more entry in [failed_papers]; and the loop over the
    batch goes on with the next document. *)
Theorem untitled_document_not_stored (m : gmap string json) :
  m !! "title" = None ->
  (forall titles, not_processed titles (JObj m) = Ok true)
  /\ (forall fault now chunks embeddings table,
        exists e,
          DatabaseManager.insert_paper_chunks fault now (JObj m) chunks
            embeddings table = (table, Raise e))
  /\ (forall tp now ext st,
        exists f,
          process_paper tp now ext (JObj m) st = (record_failure f st, Ok 0))
  /\ (forall tp now ext rest p,
        exists f,
          process_batch tp now ((ext, JObj m) :: rest) p
          = process_batch tp now rest
              {| pipeline := record_failure f (pipeline p);
                 total_chunks := total_chunks p;
                 processed_papers := processed_papers p |}).
Proof.
  intros Hnone. split; [|split; [|split]].
  - intros titles. unfold not_processed.
    cbn [dict_get mbind result_bind]. now rewrite Hnone.
  - intros. now apply insert_untitled.
  - intros. now apply process_untitled.
  - intros tp now ext rest p.
    destruct (process_untitled m tp now ext (pipeline p) Hnone) as [f Hf].
    exists f. cbn [process_batch]. now rewrite Hf.
Qed.

(** A document with a text and no title. *)
Lemma untitled_document_not_stored_witness :
  (forall titles,
     not_processed titles (JObj {[ "full_text" := JStr "One. Two." ]}) = Ok true)
  /\ (forall fault now chunks embeddings table,
        exists e,
          DatabaseManager.insert_paper_chunks fault now
            (JObj {[ "full_text" := JStr "One. Two." ]}) chunks
            embeddings table = (table, Raise e))
  /\ (forall tp now ext st,
        exists f,
          process_paper tp now ext
            (JObj {[ "full_text" := JStr "One. Two." ]}) st
          = (record_failure f st, Ok 0))
  /\ (forall tp now ext rest p,
        exists f,
          process_batch tp now
            ((ext, JObj {[ "full_text" := JStr "One. Two." ]}) :: rest) p
          = process_batch tp now rest
              {| pipeline := record_failure f (pipeline p);
                 total_chunks := total_chunks p;
                 processed_papers := processed_papers p |}).
Proof.
  apply (untitled_document_not_stored {[ "full_text" := JStr "One. Two." ]}).
  reflexivity.
Defined.

End Untitled.

(** ** The batches of a run *)

Section Batches.
Import Store Pipeline Statements.

(** For a positive step, [range_from] has fuel enough: the batches it
    starts cover the documents, each once and in order. *)
Lemma batches_cover {A : Type} (l : list A) (step fuel i : nat) :
  0 < step ->
  length l - i <= fuel ->
  concat (map (fun j => take step (drop j l))
            (range_from fuel i (length l) step))
  = drop i l.
Proof.
  intros Hstep. revert i. induction fuel as [|fuel IH]; intros i Hfuel; simpl.
  - symmetry. apply drop_ge. lia.
  - destruct (i <? length l)%nat eqn:E.
    + simpl. rewrite IH by lia.
      rewrite <- drop_drop. apply take_drop.
    + apply Nat.ltb_ge in E. symmetry. now apply drop_ge.
Qed.

Lemma process_batch_app (tp : TextProcessor.t) (now : string)
    (a b : list (document_run * json)) (p : progress) :
  process_batch tp now (a ++ b) p
  = match process_batch tp now a p with
    | (p', Ok _) => process_batch tp now b p'
    | (p', Raise e) => (p', Raise e)
    end.
Proof.
  revert p. induction a as [|[ext paper] a IH]; intros p; [reflexivity|].
  cbn [app process_batch].
  destruct (process_paper tp now ext paper (pipeline p)) as [st [n|e]];
    [apply IH | reflexivity].
Qed.

(** The two nested loops of [run] process the documents one after the
    other, as one loop over all of them does. *)
Lemma process_batches_concat (tp : TextProcessor.t) (now : string)
    (batch_size : nat) (papers : list (document_run * json))
    (starts : list nat) (p : progress) :
  process_batches tp now batch_size papers starts p
  = process_batch tp now
      (concat (map (fun i => take batch_size (drop i papers)) starts)) p.
Proof.
  revert p. induction starts as [|i starts IH]; intros p; [reflexivity|].
  cbn [process_batches map concat]. rewrite process_batch_app.
  destruct (process_batch tp now (take batch_size (drop i papers)) p)
    as [p' [[]|e]]; [apply IH | reflexivity].
Qed.

Lemma process_batches_all (tp : TextProcessor.t) (now : string)
    (batch_size : Z) (papers : list (document_run * json)) (p : progress) :
  (0 < batch_size)%Z ->
  exists starts,
    batch_starts (length papers) batch_size = Ok starts
    /\ process_batches tp now (Z.to_nat batch_size) papers starts p
       = process_batch tp now papers p.
Proof.
  intros Hpos. unfold batch_starts.
  destruct (batch_size =? 0)%Z eqn:E0; [apply Z.eqb_eq in E0; lia|].
  destruct (batch_size <? 0)%Z eqn:E1; [apply Z.ltb_lt in E1; lia|].
  eexists. split; [reflexivity|].
  rewrite process_batches_concat, batches_cover by lia.
  reflexivity.
Qed.

End Batches.

(** ** A document whose text is cleaned away *)

Section CleanedAway.
Import Store Pipeline.

(** A document whose text holds no character that [clean_text] keeps passes
    the test for content, is chunked into one chunk with the empty text, and
    that chunk is inserted: the branch for a document without chunks is
    never taken. *)
Example document_without_words_is_stored :
  process_paper TextProcessor.default "20240101_000000"
    {| generate_embeddings := fun texts => Ok (map (fun _ => [1%Q]) texts);
       fault := DatabaseManager.NoFault |}
    (JObj (<[ "title" := JStr "A" ]> {[ "full_text" := JStr "@@@" ]}))
    {| table := []; failed_papers := [] |}
  = ({| table :=
          [ {| title := "A";
               abstract := JStr "";
               text_chunk := "";
               embedding := [1%Q];
               row_metadata :=
                 Metadata 0 1 0 (JStr "papers.jsonl") "20240101_000000";
               paper_id := "a_20240101_000000";
               chunk_index := 0;
               chunk_length := 0 |} ];
        failed_papers := [] |},
     Ok 1).
Proof. vm_compute. reflexivity. Qed.

End CleanedAway.

(** ** Examples for the statements with hypotheses *)

Section Witnesses.
Import Store Pipeline Statements.

(** The data file of eleven lines of [Example]: ten documents are loaded and
    line 4 is recorded. *)
Lemma load_papers_skips_malformed_witness :
  load_papers (Example.world_of Example.eleven_lines)
    {| table := []; failed_papers := [] |}
  = ({| table := []; failed_papers := [LineError 4] |},
     Ok (map (fun t => JObj {[ "title" := JStr t ]})
           ["A"; "B"; "C"; "D"; "E"; "F"; "G"; "H"; "I"; "J"]))
  /\ length (parsed_lines Example.loads Example.eleven_lines) = 10
  /\ failed_line_numbers Example.loads 1 Example.eleven_lines = [4].
Proof.
  destruct (load_papers_skips_malformed
              (Example.world_of Example.eleven_lines)
              {| table := []; failed_papers := [] |}
              Example.eleven_lines eq_refl) as [Hload Hscenario].
  split; [exact Hload|].
  destruct (Hscenario ["{A"; "{B"; "{C"]
              ["{D"; "{E"; "{F"; "{G"; "{H"; "{I"; "{J"] "oops" eq_refl)
    as (Hten & _ & Hline).
  - repeat constructor; eexists; reflexivity.
  - reflexivity.
  - reflexivity.
  - split; [exact Hten | exact Hline].
Defined.

(** A table that holds the documents A and B, and a data file with the
    lines of A, B and A again. *)
Lemma rerun_processes_nothing_witness :
  exists st' o,
    run TextProcessor.default 10 (Example.world_of ["{A"; "{B"; "{A"])
      {| table := [Example.row_titled "A"; Example.row_titled "B"];
         failed_papers := [] |}
    = (st', Ok o)
    /\ (o = NoPapers \/ o = AllProcessed)
    /\ table st' = [Example.row_titled "A"; Example.row_titled "B"].
Proof.
  apply (rerun_processes_nothing TextProcessor.default 10
           (Example.world_of ["{A"; "{B"; "{A"])
           {| table := [Example.row_titled "A"; Example.row_titled "B"];
              failed_papers := [] |}
           ["{A"; "{B"; "{A"]
           (list_to_set ["A"; "B"])).
  - reflexivity.
  - reflexivity.
  - repeat constructor.
    + exists {[ "title" := JStr "A" ]}, "A".
      split; [reflexivity|]. split; [reflexivity|]. set_solver.
    + exists {[ "title" := JStr "B" ]}, "B".
      split; [reflexivity|]. split; [reflexivity|]. set_solver.
    + exists {[ "title" := JStr "A" ]}, "A".
      split; [reflexivity|]. split; [reflexivity|]. set_solver.
Defined.


(** The table that holds the documents A and B and the data file with the
    lines of A, B and A again, the title query succeeding. *)
Lemma rerun_keeps_store_witness :
  exists st' r,
    run TextProcessor.default 10 (Example.world_of ["{A"; "{B"; "{A"])
      {| table := [Example.row_titled "A"; Example.row_titled "B"];
         failed_papers := [] |}
    = (st', r)
    /\ (r = Ok NoPapers \/ r = Ok AllProcessed \/ r = Raise PostgreSQLError)
    /\ table st' = [Example.row_titled "A"; Example.row_titled "B"].
Proof.
  apply (rerun_keeps_store TextProcessor.default 10
           (Example.world_of ["{A"; "{B"; "{A"])
           {| table := [Example.row_titled "A"; Example.row_titled "B"];
              failed_papers := [] |}
           ["{A"; "{B"; "{A"]).
  - reflexivity.
  - discriminate.
  - repeat constructor.
    + exists {[ "title" := JStr "A" ]}, "A".
      split; [reflexivity|]. split; [reflexivity|]. set_solver.
    + exists {[ "title" := JStr "B" ]}, "B".
      split; [reflexivity|]. split; [reflexivity|]. set_solver.
    + exists {[ "title" := JStr "A" ]}, "A".
      split; [reflexivity|]. split; [reflexivity|]. set_solver.
Defined.

End Witnesses.
